(** * Equation generator and math-symbols library: shallow embedding

    Two near-duplicate modules of the repository are embedded here:
    - [Compact]: src/src/extensions/equation/equation-generator.ts
    - [Advanced]: the "Advanced Implementation" appended to
      src/src/extensions/equation/math-symbols-library.ts
    together with the command registry and [getSuggestions] of the
    library proper ([Symbols]).

    Strings are modelled as Rocq [string]s of ASCII characters (one
    character per UTF-16 code unit); [toLowerCase] and [trim] are the
    ASCII restrictions of the JavaScript ones; JavaScript numbers that the
    code prints are integers and are printed in decimal. *)

From Stdlib Require Import Strings.String Strings.Ascii List Arith Lia ZArith
  Sorting.Sorted Sorting.Permutation Numbers.DecimalString Numbers.DecimalZ.
Import ListNotations.
Open Scope bool_scope.
Open Scope string_scope.

(* ------------------------------------------------------------------ *)
(** ** JavaScript string helpers *)
Module JS.

Definition char_nl : ascii := ascii_of_nat 10.
Definition char_cr : ascii := ascii_of_nat 13.
Definition nl : string := String char_nl EmptyString.

(** [String.prototype.toLowerCase], ASCII part. *)
Definition lower_char (c : ascii) : ascii :=
  let n := nat_of_ascii c in
  if Nat.leb 65 n && Nat.leb n 90 then ascii_of_nat (n + 32) else c.

Fixpoint toLowerCase (s : string) : string :=
  match s with
  | EmptyString => EmptyString
  | String c s' => String (lower_char c) (toLowerCase s')
  end.

(** [s.startsWith(p)], returning the rest of [s] after [p]. *)
Fixpoint strip_prefix (p s : string) : option string :=
  match p, s with
  | EmptyString, _ => Some s
  | String c p', String d s' =>
      if Ascii.eqb c d then strip_prefix p' s' else None
  | String _ _, EmptyString => None
  end.

Definition startsWith (s p : string) : bool :=
  match strip_prefix p s with Some _ => true | None => false end.

(** [s.includes(p)]: [p] starts at some position of [s]. *)
Fixpoint includes (s p : string) : bool :=
  startsWith s p ||
  match s with
  | EmptyString => false
  | String _ s' => includes s' p
  end.

(** Line terminators, which the regular-expression [.] does not match. *)
Definition is_line_terminator (c : ascii) : bool :=
  Ascii.eqb c char_nl || Ascii.eqb c char_cr.

(** White space removed by [String.prototype.trim] (ASCII part). *)
Definition is_space (c : ascii) : bool :=
  let n := nat_of_ascii c in Nat.eqb n 32 || (Nat.leb 9 n && Nat.leb n 13).

Fixpoint trim_start (s : string) : string :=
  match s with
  | String c s' => if is_space c then trim_start s' else s
  | EmptyString => EmptyString
  end.

Fixpoint rev_string (s : string) (acc : string) : string :=
  match s with
  | EmptyString => acc
  | String c s' => rev_string s' (String c acc)
  end.

Definition trim (s : string) : string :=
  rev_string (trim_start (rev_string (trim_start s) EmptyString)) EmptyString.

(** [s.split(c)[0]]: the characters before the first [c]. *)
Fixpoint split_head (c : ascii) (s : string) : string :=
  match s with
  | EmptyString => EmptyString
  | String d s' => if Ascii.eqb d c then EmptyString else String d (split_head c s')
  end.

(** [s.split(c)]. *)
Fixpoint split_go (c : ascii) (s cur : string) : list string :=
  match s with
  | EmptyString => [rev_string cur EmptyString]
  | String d s' =>
      if Ascii.eqb d c then rev_string cur EmptyString :: split_go c s' EmptyString
      else split_go c s' (String d cur)
  end.

Definition split (c : ascii) (s : string) : list string := split_go c s EmptyString.

(** [/p$/.test(s)] for a literal [p]: [s] ends with [p]. *)
Fixpoint endsWith (s p : string) : bool :=
  String.eqb s p ||
  match s with
  | EmptyString => false
  | String _ s' => endsWith s' p
  end.

(** Number of occurrences of a character: [(s.match(/c/g) || []).length]. *)
Fixpoint count_char (c : ascii) (s : string) : nat :=
  match s with
  | EmptyString => 0
  | String d s' => (if Ascii.eqb d c then 1 else 0) + count_char c s'
  end.

(** Template-literal interpolation of an integer number. *)
Definition show_Z (z : Z) : string := NilEmpty.string_of_int (Z.to_int z).
Definition show_nat (n : nat) : string := show_Z (Z.of_nat n).

End JS.

(* ------------------------------------------------------------------ *)
(** ** math-symbols-library.ts: registry, [isValidCommand], [getSuggestions] *)
Module Symbols.
Import JS.

(** The literal of [new Set<string>([...])], in source order. *)
Definition VALID_MATH_COMMANDS_literal : list string := [
  "alpha"; "beta"; "gamma"; "delta"; "epsilon"; "varepsilon"; "zeta"; "eta";
  "theta"; "vartheta"; "iota"; "kappa"; "lambda"; "mu"; "nu"; "xi"; "pi";
  "varpi"; "rho"; "varrho"; "sigma"; "varsigma"; "tau"; "upsilon"; "phi";
  "varphi"; "chi"; "psi"; "omega"; "Gamma"; "Delta"; "Theta"; "Lambda"; "Xi";
  "Pi"; "Sigma"; "Upsilon"; "Phi"; "Psi"; "Omega"; "leq"; "geq"; "equiv";
  "neq"; "sim"; "approx"; "cong"; "propto"; "prec"; "succ"; "preceq";
  "succeq"; "ll"; "gg"; "subset"; "supset"; "subseteq"; "supseteq"; "in";
  "ni"; "vdash"; "dashv"; "pm"; "mp"; "times"; "div"; "cdot"; "ast"; "star";
  "cap"; "cup"; "vee"; "wedge"; "oplus"; "otimes"; "circ"; "bullet";
  "diamond"; "Box"; "triangleleft"; "triangleright"; "dagger"; "ddagger";
  "sum"; "prod"; "int"; "oint"; "bigcap"; "bigcup"; "bigvee"; "bigwedge";
  "bigoplus"; "bigotimes"; "leftarrow"; "Leftarrow"; "rightarrow";
  "Rightarrow"; "leftrightarrow"; "Leftrightarrow"; "mapsto";
  "hookleftarrow"; "hookrightarrow"; "uparrow"; "Uparrow"; "downarrow";
  "Downarrow"; "updownarrow"; "Updownarrow"; "longleftarrow";
  "Longleftarrow"; "longrightarrow"; "Longrightarrow"; "longleftrightarrow";
  "Longleftrightarrow"; "langle"; "rangle"; "lfloor"; "rfloor"; "lceil";
  "rceil"; "lbrace"; "rbrace"; "mathbf"; "mathit"; "mathsf"; "mathrm";
  "mathcal"; "mathbb"; "mathfrak"; "mathscr"; "infty"; "nabla"; "partial";
  "emptyset"; "exists"; "forall"; "neg"; "triangle"; "angle"; "hbar";
  "imath"; "jmath"; "ell"; "wp"; "Re"; "Im"; "aleph"; "beth"; "gimel"; "bot";
  "top"; "arccos"; "arcsin"; "arctan"; "arg"; "cos"; "cosh"; "cot"; "coth";
  "csc"; "deg"; "det"; "dim"; "exp"; "gcd"; "hom"; "inf"; "ker"; "lg"; "lim";
  "liminf"; "limsup"; "ln"; "log"; "max"; "min"; "Pr"; "sec"; "sin"; "sinh";
  "sup"; "tan"; "tanh"; "hat"; "check"; "breve"; "acute"; "grave"; "tilde";
  "bar"; "vec"; "dot"; "ddot"; "frac"; "sqrt"; "overline"; "underline";
  "overbrace"; "underbrace"; "widehat"; "widetilde"; "overleftarrow";
  "overrightarrow"; "matrix"; "pmatrix"; "bmatrix"; "Bmatrix"; "vmatrix";
  "Vmatrix"; "array"; "begin"; "end"; "left"; "right"; "big"; "Big"; "bigg";
  "Bigg"; "quad"; "qquad"; "hspace"; "vspace"; "thickspace"; "medspace";
  "thinspace"; "operatorname"; "limits"; "equation"; "equation*"; "align";
  "align*"; "gather"; "gather*"; "multline"; "multline*"; "split"; "cases";
  "aligned"; "gathered"; "text"; "textbf"; "textit"; "textrm"; "textsf";
  "texttt"; "textsc"; "newcommand"; "renewcommand"; "section"; "subsection";
  "subsubsection"; "mbox"; "hfill"; "vfill"; "unit"; "meter"; "gram";
  "second"; "ampere"; "kelvin"; "mole"; "candela"; "LaTeX"; "TeX"
].

(** A [Set] iterates in insertion order and keeps the first occurrence of
    each element. *)
Fixpoint set_of_list_go (l seen : list string) : list string :=
  match l with
  | [] => []
  | x :: l' =>
      if existsb (String.eqb x) seen then set_of_list_go l' seen
      else x :: set_of_list_go l' (x :: seen)
  end.

Definition VALID_MATH_COMMANDS : list string :=
  set_of_list_go VALID_MATH_COMMANDS_literal [].

Definition set_has (s : list string) (x : string) : bool := existsb (String.eqb x) s.

Definition char_backslash : ascii := "\"%char.
Definition char_lbrace : ascii := "{"%char.

(** [isValidCommand] on a string without backslash. *)
Definition isValidBase (cmd : string) : bool :=
  let base := trim (split_head char_lbrace cmd) in
  if String.eqb base "newcommand" || String.eqb base "renewcommand" then true
  else set_has VALID_MATH_COMMANDS base.

(** [isValidCommand]: the recursive call is made on the pieces of
    [cmd.split('\\')], which contain no backslash, so it is [isValidBase]. *)
Definition isValidCommand (cmd : string) : bool :=
  if includes cmd (String char_backslash EmptyString) then
    forallb (fun p => String.eqb p EmptyString || isValidBase p)
            (split char_backslash cmd)
  else isValidBase cmd.

(** [categorizeCommand]. The anchored alternatives with the [i] flag
    compare the base name with the listed names up to ASCII letter case
    (the names are lowercase ASCII; without the [u] flag a non-ASCII
    character never matches an ASCII one). *)
Definition greek_names : list string := [
  "alpha"; "beta"; "gamma"; "delta"; "epsilon"; "varepsilon"; "zeta"; "eta";
  "theta"; "vartheta"; "iota"; "kappa"; "lambda"; "mu"; "nu"; "xi"; "pi";
  "varpi"; "rho"; "varrho"; "sigma"; "varsigma"; "tau"; "upsilon"; "phi";
  "varphi"; "chi"; "psi"; "omega"].
Definition big_operator_names : list string :=
  ["sum"; "prod"; "int"; "oint"; "bigcap"; "bigcup"; "bigvee"; "bigwedge"].
Definition formatting_names : list string :=
  ["frac"; "sqrt"; "overline"; "underline"; "vec"; "hat"; "bar"; "dot"].
Definition function_names : list string :=
  ["sin"; "cos"; "tan"; "exp"; "log"; "ln"; "lim"].
Definition relation_names : list string :=
  ["leq"; "geq"; "neq"; "approx"; "equiv"; "cong"; "sim"].
Definition font_names : list string :=
  ["mathbf"; "mathit"; "mathcal"; "mathfrak"; "mathbb"].
Definition environment_names : list string := ["begin"; "end"].

(** [/^(w1|...|wn)$/i.test(base)]. *)
Definition test_ci (names : list string) (base : string) : bool :=
  existsb (String.eqb (toLowerCase base)) names.

Definition categorizeCommand (cmd : string) : string :=
  let base := trim (split_head char_lbrace cmd) in
  if test_ci greek_names base then "Greek letter"
  else if test_ci big_operator_names base then "Big operator"
  else if test_ci formatting_names base then "Formatting"
  else if test_ci function_names base then "Function"
  else if endsWith base "arrow"
          || (includes base "Rightarrow" || includes base "Leftarrow"
              || includes base "mapsto") then "Arrow"
  else if test_ci relation_names base then "Relation"
  else if test_ci font_names base then "Font style"
  else if test_ci environment_names base then "Environment"
  else "Other".

(** *** The edit distance [dist] of [getSuggestions] *)

(** One row of the table [dp]: [row_go c a diag left prev] computes
    [dp[i][j..]] from [c = b[i-1]], the remaining characters [a[j-1..]],
    [diag = dp[i-1][j-1]], [left = dp[i][j-1]] and [prev = dp[i-1][j..]]. *)
Fixpoint row_go (c : ascii) (a : string) (diag left : nat) (prev : list nat)
  : list nat :=
  match a, prev with
  | String x a', up :: prev' =>
      let v := if Ascii.eqb c x then diag
               else 1 + Nat.min (Nat.min diag left) up in
      v :: row_go c a' up v prev'
  | _, _ => []
  end.

(** Row [i]: [dp[i][0] = i], then columns [1..a.length]. *)
Definition next_row (c : ascii) (a : string) (prev : list nat) (i : nat)
  : list nat :=
  i :: row_go c a (hd 0 prev) i (tl prev).

(** Outer loop over [i = 1..b.length]. *)
Fixpoint rows_go (b a : string) (prev : list nat) (i : nat) : list nat :=
  match b with
  | EmptyString => prev
  | String c b' => rows_go b' a (next_row c a prev (S i)) (S i)
  end.

Definition dist (a b : string) : nat :=
  if String.eqb a b then 0
  else nth (String.length a)
           (rows_go b a (seq 0 (S (String.length a))) 0) 0.

(** The recurrence that the table implements, on the reversed prefixes
    [u] of [b] and [v] of [a]: [edit_rec u v] is [dp[|u|][|v|]]. *)
Fixpoint edit_rec (u : list ascii) : list ascii -> nat :=
  match u with
  | [] => fun v => length v
  | x :: u' =>
      fix edit_x (v : list ascii) : nat :=
        match v with
        | [] => S (length u')
        | y :: v' =>
            if Ascii.eqb x y then edit_rec u' v'
            else 1 + Nat.min (Nat.min (edit_rec u' v') (edit_x v')) (edit_rec u' v)
        end
  end.

(** Columns [1..] of row [u] of the table, the reversed prefix of [a]
    already visited being [acc]. *)
Fixpoint cols (u acc : list ascii) (a : string) : list nat :=
  match a with
  | EmptyString => []
  | String x a' => edit_rec u (x :: acc) :: cols u (x :: acc) a'
  end.

(** *** Suggestion ranking *)

(** [Array.prototype.sort] is stable; with the comparator [a.d - b.d] its
    result is the stable sort by [d], computed here by insertion. *)
Fixpoint insert_by_d (x : string * nat) (l : list (string * nat))
  : list (string * nat) :=
  match l with
  | [] => [x]
  | y :: l' => if Nat.leb (snd x) (snd y) then x :: l else y :: insert_by_d x l'
  end.

Fixpoint sort_by_d (l : list (string * nat)) : list (string * nat) :=
  match l with
  | [] => []
  | x :: l' => insert_by_d x (sort_by_d l')
  end.

(** [getSuggestions] over a registry given by its iteration order. *)
Definition getSuggestions_in (registry : list string) (bad : string)
  : list string :=
  map fst (firstn 5 (sort_by_d (map (fun cmd => (cmd, dist bad cmd)) registry))).

Definition getSuggestions (bad : string) : list string :=
  getSuggestions_in VALID_MATH_COMMANDS bad.

(** Order of the ranking on pairs, and the pairs of [getSuggestions]
    (each carries the distance of its name). *)
Definition le_d (p q : string * nat) : Prop := snd p <= snd q.
Definition tagged (bad : string) (p : string * nat) : Prop := snd p = dist bad (fst p).

End Symbols.

(* ------------------------------------------------------------------ *)
(** ** The regular expressions of the validators *)
Module Scan.
Import JS.

Definition char_rbrace : ascii := "}"%char.

(** The maximal run of characters other than ['}']: [([^}]+)] is greedy
    and followed by [\}], so it matches exactly when this run is non-empty
    and followed by ['}']. *)
Fixpoint run_not_rbrace (s : string) : string * string :=
  match s with
  | EmptyString => (EmptyString, EmptyString)
  | String c s' =>
      if Ascii.eqb c char_rbrace then (EmptyString, s)
      else let (r, t) := run_not_rbrace s' in (String c r, t)
  end.

(** [/\\kw\{([^}]+)\}/] tried at the start of [s]: the matched text, the
    captured name and the input after the match. *)
Definition tag_at (kw s : string) : option (string * string * string) :=
  match strip_prefix ("\" ++ kw ++ "{") s with
  | None => None
  | Some t =>
      match run_not_rbrace t with
      | (String _ _ as name, String c rest) =>
          if Ascii.eqb c char_rbrace
          then Some ("\" ++ kw ++ "{" ++ name ++ "}", name, rest)
          else None
      | _ => None
      end
  end.

(** [s.match(/\\kw\{([^}]+)\}/g)]: leftmost matches, each search resuming
    after the previous match; [fuel] bounds the number of positions
    visited and [length s + 1] suffices. Each element is the matched text
    with its capture. *)
Fixpoint tags_go (fuel : nat) (kw s : string) : list (string * string) :=
  match fuel with
  | O => []
  | S fuel' =>
      match tag_at kw s with
      | Some (m, name, rest) => (m, name) :: tags_go fuel' kw rest
      | None =>
          match s with
          | EmptyString => []
          | String _ s' => tags_go fuel' kw s'
          end
      end
  end.

Definition tags (kw s : string) : list (string * string) :=
  tags_go (S (String.length s)) kw s.

(** [tag.match(/\\kw\{([^}]+)\}/)[1]] on a matched tag: the first capture.
    The empty-result branch is not reached (see [env_name_tag]); in
    JavaScript it would throw. *)
Definition env_name (kw tag : string) : string :=
  match tags kw tag with
  | (_, name) :: _ => name
  | [] => EmptyString
  end.

Definition is_ascii_letter (c : ascii) : bool :=
  let n := nat_of_ascii c in
  (Nat.leb 65 n && Nat.leb n 90) || (Nat.leb 97 n && Nat.leb n 122).

Fixpoint run_letters (s : string) : string * string :=
  match s with
  | EmptyString => (EmptyString, EmptyString)
  | String c s' =>
      if is_ascii_letter c then let (r, t) := run_letters s' in (String c r, t)
      else (EmptyString, s)
  end.

(** [/\\[a-zA-Z]+/] tried at the start of [s]. *)
Definition cmd_at (s : string) : option (string * string) :=
  match s with
  | String c t =>
      if Ascii.eqb c Symbols.char_backslash then
        match run_letters t with
        | (String _ _ as name, rest) => Some (String c name, rest)
        | _ => None
        end
      else None
  | EmptyString => None
  end.

Fixpoint cmds_go (fuel : nat) (s : string) : list string :=
  match fuel with
  | O => []
  | S fuel' =>
      match cmd_at s with
      | Some (m, rest) => m :: cmds_go fuel' rest
      | None =>
          match s with
          | EmptyString => []
          | String _ s' => cmds_go fuel' s'
          end
      end
  end.

(** [s.match(/\\[a-zA-Z]+/g) || []]. *)
Definition commands (s : string) : list string := cmds_go (S (String.length s)) s.

(** [seq.substring(1)]. *)
Definition substring1 (s : string) : string :=
  match s with String _ s' => s' | EmptyString => EmptyString end.

End Scan.

(* ------------------------------------------------------------------ *)
(** ** Shared data *)

Record EquationGenerationResult := mkResult {
  latex : string;
  preview : string;
  components : option (list string);
  explanation : option string
}.

(** [{ result: ... }] of [ExecuteToolResponseSchema]. *)
Record ToolResponse := mkResponse { result : EquationGenerationResult }.

Record KnownPattern := mkPattern {
  keys : list string;
  p_latex : string;
  p_components : option (list string);
  p_explanation : string
}.

(** [for (const p of patterns) if (p.keys.some(k => lower.includes(k)))]. *)
Fixpoint first_pattern (lower : string) (ps : list KnownPattern)
  : option KnownPattern :=
  match ps with
  | [] => None
  | p :: ps' =>
      if existsb (JS.includes lower) (keys p) then Some p else first_pattern lower ps'
  end.

(** The kinds of validation messages, one per [errors.push] site; the
    argument is the pushed string. *)
Inductive ValidationIssue :=
| UnbalancedBraces (detail : string)
| UnbalancedDelimiters (detail : string)
| MismatchedEnvironment (detail : string)
| UnknownCommand (detail : string).

Definition issue_text (i : ValidationIssue) : string :=
  match i with
  | UnbalancedBraces d | UnbalancedDelimiters d
  | MismatchedEnvironment d | UnknownCommand d => d
  end.

Definition is_braces (i : ValidationIssue) : bool :=
  match i with UnbalancedBraces _ => true | _ => false end.
Definition is_delims (i : ValidationIssue) : bool :=
  match i with UnbalancedDelimiters _ => true | _ => false end.
Definition is_env (i : ValidationIssue) : bool :=
  match i with MismatchedEnvironment _ => true | _ => false end.

(** The body of a display environment: [`\\begin{e}\n  ${x}\n\\end{e}`]. *)
Definition wrap_env (env body : string) : string :=
  "\begin{" ++ env ++ "}" ++ JS.nl ++ "  " ++ body ++ JS.nl ++ "\end{" ++ env ++ "}".

(* ------------------------------------------------------------------ *)
(** ** equation-generator.ts *)
Module Compact.
Import JS.

Definition patterns : list KnownPattern := [
  mkPattern ["quadratic formula"]
    "x = \frac{-b \pm \sqrt{b^2 - 4ac}}{2a}" None
    "Solution to ax²+bx+c=0.";
  mkPattern ["pythagorean theorem"]
    "a^2 + b^2 = c^2" None
    "Right‑triangle side relation.";
  mkPattern ["euler identity"; "euler's identity"]
    "e^{i\pi} + 1 = 0" None
    "Links e, i, π, 1, 0."
].

Definition canonical (p : KnownPattern) : EquationGenerationResult :=
  mkResult (p_latex p) ("Preview:" ++ nl ++ p_latex p) None (Some (p_explanation p)).

Definition matchKnownEquationPattern (desc : string)
  : option EquationGenerationResult :=
  let lower := toLowerCase desc in
  match first_pattern lower patterns with
  | Some p => Some (canonical p)
  | None => None
  end.

Definition formatEquationResult (src : EquationGenerationResult)
  (fmt : string) (numbered : bool) : ToolResponse :=
  let wrap :=
    if String.eqb fmt "inline" then "$" ++ latex src ++ "$"
    else if String.eqb fmt "display" then
      (if numbered then wrap_env "equation" (latex src)
       else "\[" ++ nl ++ "  " ++ latex src ++ nl ++ "\]")
    else if String.eqb fmt "align" then
      wrap_env (if numbered then "align" else "align*") (latex src)
    else if String.eqb fmt "gather" then
      wrap_env (if numbered then "gather" else "gather*") (latex src)
    else if String.eqb fmt "multline" then
      wrap_env (if numbered then "multline" else "multline*") (latex src)
    else latex src in
  mkResponse (mkResult wrap (preview src) (components src) (explanation src)).

Definition validateEquation (code : string) : list ValidationIssue :=
  let open_ := count_char "{" code in
  let close := count_char "}" code in
  let e1 := if Nat.eqb open_ close then []
            else [UnbalancedBraces ("Unbalanced braces (" ++ show_nat open_ ++ "/"
                                    ++ show_nat close ++ ").")] in
  let dollars := count_char "$" code in
  let e2 := if Nat.eqb (Nat.modulo dollars 2) 0 then []
            else [UnbalancedDelimiters "Unbalanced $ delimiters."] in
  let begin_ := Scan.tags "begin" code in
  let end_ := Scan.tags "end" code in
  let e3 := if Nat.eqb (length begin_) (length end_) then []
            else [MismatchedEnvironment ("Mismatched \begin/\end (" ++ show_nat (length begin_)
                                         ++ "/" ++ show_nat (length end_) ++ ").")] in
  let e4 := flat_map (fun cmd =>
              let name := Scan.substring1 cmd in
              if Symbols.isValidCommand name then []
              else [UnknownCommand ("Unknown command \" ++ name)])
            (Scan.commands code) in
  e1 ++ e2 ++ e3 ++ e4.

End Compact.


(* ------------------------------------------------------------------ *)
(** ** math-symbols-library.ts, "Advanced Implementation" *)
Module Advanced.
Import JS.

Definition equationPatterns : list KnownPattern := [
  mkPattern ["quadratic formula"; "quadratic equation solution"]
    "x = \frac{-b \pm \sqrt{b^2 - 4ac}}{2a}"
    (Some ["variable x"; "coefficients a, b, c"; "square root"; "plus-minus operator"])
    "The quadratic formula provides solutions to any quadratic equation ax² + bx + c = 0.";
  mkPattern ["pythagorean theorem"; "right triangle relation"]
    "a^2 + b^2 = c^2"
    (Some ["sides a and b"; "hypotenuse c"; "squared terms"])
    "The Pythagorean theorem relates the sides of a right triangle.";
  mkPattern ["euler identity"; "euler's formula"; "euler's identity"]
    "e^{i\pi} + 1 = 0"
    (Some ["euler's number e"; "imaginary unit i"; "pi constant"; "exponential function"])
    "Euler's identity connects five fundamental mathematical constants in a single formula.";
  mkPattern ["normal distribution"; "gaussian distribution"; "probability density function"; "pdf normal"]
    "f(x | \mu, \sigma^2) = \frac{1}{\sqrt{2\pi\sigma^2}} e^{-\frac{(x-\mu)^2}{2\sigma^2}}"
    (Some ["function notation"; "mean μ"; "variance σ²"; "exponential function"; "fraction"])
    "The normal distribution probability density function describes the distribution of continuous data.";
  mkPattern ["maxwell equation"; "gauss's law"; "electric field divergence"]
    "\nabla \cdot \mathbf{E} = \frac{\rho}{\epsilon_0}"
    (Some ["nabla operator"; "dot product"; "electric field vector"; "charge density"; "vacuum permittivity"])
    "Gauss's law for electricity (one of Maxwell's equations) relates electric field to charge density.";
  mkPattern ["navier-stokes"; "fluid dynamics equation"]
    "\rho \left( \frac{\partial \vec{v}}{\partial t} + \vec{v} \cdot \nabla \vec{v} \right) = -\nabla p + \nabla \cdot \mathbf{T} + \vec{f}"
    (Some ["density ρ"; "velocity vector"; "pressure gradient"; "stress tensor"; "body forces"])
    "The Navier-Stokes equations describe the motion of fluid substances.";
  mkPattern ["schrodinger equation"; "quantum mechanics"; "wave function equation"]
    "i\hbar\frac{\partial}{\partial t}\Psi(\mathbf{r},t) = \hat{H}\Psi(\mathbf{r},t)"
    (Some ["imaginary unit i"; "reduced Planck constant"; "wave function"; "Hamiltonian operator"])
    "The Schrödinger equation describes how the quantum state of a physical system changes over time.";
  mkPattern ["einstein field equations"; "general relativity"; "spacetime curvature"]
    "R_{\mu\nu} - \frac{1}{2}Rg_{\mu\nu} + \Lambda g_{\mu\nu} = \frac{8\pi G}{c^4}T_{\mu\nu}"
    (Some ["Ricci curvature tensor"; "metric tensor"; "cosmological constant"; "stress-energy tensor"])
    "Einstein's field equations describe the fundamental interaction of gravitation in general relativity.";
  mkPattern ["taylor series"; "taylor expansion"]
    "f(x) = f(a) + \frac{f'(a)}{1!}(x-a) + \frac{f''(a)}{2!}(x-a)^2 + \frac{f'''(a)}{3!}(x-a)^3 + \cdots"
    (Some ["function values"; "derivatives"; "factorial notation"; "power series"])
    "A Taylor series expands a function into an infinite sum of terms derived from the function's derivatives at a single point.";
  mkPattern ["fourier transform"; "fourier analysis"]
    "\mathcal{F}[f(t)] = F(\omega) = \int_{-\infty}^{\infty} f(t) e^{-i\omega t} dt"
    (Some ["integral"; "function in time domain"; "exponential term"; "angular frequency"])
    "The Fourier transform converts a function of time to a function of frequency."
].

Definition canonical (p : KnownPattern) : EquationGenerationResult :=
  mkResult (p_latex p) ("Preview: " ++ p_latex p) (p_components p)
           (Some (p_explanation p)).

(** *** The special-case regular expressions
    [/(?:derivative of|differentiate) (f\(x\) = .+?)(?:with respect to|$)/]
    and [/(?:integral of|integrate) (f\(x\) = .+?)(?:with respect to|$)/]. *)

(** The lazy [.+?] followed by [(?:with respect to|$)]: the shortest
    non-empty run of non-line-terminators after which the input either
    starts with "with respect to" or ends. *)
Fixpoint lazy_tail (r : string) : option string :=
  match r with
  | EmptyString => None
  | String c r' =>
      if is_line_terminator c then None
      else if startsWith r' "with respect to" || String.eqb r' EmptyString
      then Some (String c EmptyString)
      else option_map (String c) (lazy_tail r')
  end.

(** One alternative of [(?:a|b)] followed by [ (f\(x\) = .+?)...]: the
    capture. *)
Definition fx_after (alt t : string) : option string :=
  match strip_prefix (alt ++ " f(x) = ") t with
  | Some r => option_map (fun e => "f(x) = " ++ e) (lazy_tail r)
  | None => None
  end.

(** The alternatives in order, at one position. *)
Fixpoint fx_at (alts : list string) (t : string) : option string :=
  match alts with
  | [] => None
  | a :: alts' =>
      match fx_after a t with
      | Some g => Some g
      | None => fx_at alts' t
      end
  end.

(** [re.exec(s)[1]]: the leftmost position where the expression matches. *)
Fixpoint fx_exec (alts : list string) (s : string) : option string :=
  match fx_at alts s with
  | Some g => Some g
  | None =>
      match s with
      | EmptyString => None
      | String _ s' => fx_exec alts s'
      end
  end.

Definition derivative_alts : list string := ["derivative of"; "differentiate"].
Definition integral_alts : list string := ["integral of"; "integrate"].

(** [/f\(x\) = (.+)/.exec(functionText)[1]]: greedy [.+]. *)
Fixpoint run_no_line_terminator (s : string) : string :=
  match s with
  | EmptyString => EmptyString
  | String c s' =>
      if is_line_terminator c then EmptyString else String c (run_no_line_terminator s')
  end.

Fixpoint fx_expression (s : string) : option string :=
  match
    match strip_prefix "f(x) = " s with
    | Some r => match run_no_line_terminator r with
                | EmptyString => None
                | g => Some g
                end
    | None => None
    end
  with
  | Some g => Some g
  | None => match s with EmptyString => None | String _ s' => fx_expression s' end
  end.

(** [/^x\^(\d+)$/] and [parseInt] of the digits (exact below 2^53). *)
Definition digit_value (c : ascii) : option Z :=
  let n := nat_of_ascii c in
  if Nat.leb 48 n && Nat.leb n 57 then Some (Z.of_nat (n - 48)) else None.

Fixpoint digits_go (s : string) (acc : Z) : option Z :=
  match s with
  | EmptyString => Some acc
  | String c s' =>
      match digit_value c with
      | Some d => digits_go s' (10 * acc + d)%Z
      | None => None
      end
  end.

Definition power_of (expression : string) : option Z :=
  match strip_prefix "x^" expression with
  | Some (String _ _ as ds) => digits_go ds 0%Z
  | _ => None
  end.

Definition handleDerivative (functionText : string) : EquationGenerationResult :=
  match fx_expression functionText with
  | None =>
      mkResult "\frac{d}{dx}[?]" "Could not parse function for differentiation" None None
  | Some g =>
      let expression := trim g in
      let '(derivative, expl) :=
        match power_of expression with
        | Some power =>
            (if Z.eqb power 1 then "1"
             else if Z.eqb power 2 then "2x"
             else show_Z power ++ "x^{" ++ show_Z (power - 1) ++ "}",
             "Using the power rule: d/dx(x^n) = n·x^(n-1)")
        | None =>
            if String.eqb expression "sin(x)" then
              ("cos(x)", "The derivative of sin(x) is cos(x)")
            else if String.eqb expression "cos(x)" then
              ("-sin(x)", "The derivative of cos(x) is -sin(x)")
            else if String.eqb expression "e^x" then
              ("e^x", "The derivative of e^x is e^x")
            else if String.eqb expression "ln(x)" then
              ("\frac{1}{x}", "The derivative of ln(x) is 1/x")
            else
              ("\frac{d}{dx}[" ++ expression ++ "]",
               "Symbolic representation of the derivative")
        end in
      mkResult derivative ("Preview: " ++ derivative) None (Some expl)
  end.

Definition handleIntegration (functionText : string) : EquationGenerationResult :=
  match fx_expression functionText with
  | None =>
      mkResult "\int{?}\,dx" "Could not parse function for integration" None None
  | Some g =>
      let expression := trim g in
      let '(integral, expl) :=
        match power_of expression with
        | Some power =>
            ("\frac{x^{" ++ show_Z (power + 1) ++ "}}{" ++ show_Z (power + 1) ++ "} + C",
             "Using the power rule: ∫x^n dx = x^(n+1)/(n+1) + C")
        | None =>
            if String.eqb expression "sin(x)" then
              ("-cos(x) + C", "The integral of sin(x) is -cos(x) + C")
            else if String.eqb expression "cos(x)" then
              ("sin(x) + C", "The integral of cos(x) is sin(x) + C")
            else if String.eqb expression "e^x" then
              ("e^x + C", "The integral of e^x is e^x + C")
            else if String.eqb expression "1/x" then
              ("ln|x| + C", "The integral of 1/x is ln|x| + C")
            else
              ("\int{" ++ expression ++ "}\,dx",
               "Symbolic representation of the integral")
        end in
      mkResult integral ("Preview: " ++ integral) None (Some expl)
  end.

(** The two special cases after the table scan. *)
Definition special_cases (lowerDesc : string) : option EquationGenerationResult :=
  let integral_case :=
    if includes lowerDesc "integral" || includes lowerDesc "integrate" then
      match fx_exec integral_alts lowerDesc with
      | Some g => Some (handleIntegration g)
      | None => None
      end
    else None in
  if includes lowerDesc "derivative" || includes lowerDesc "differentiate" then
    match fx_exec derivative_alts lowerDesc with
    | Some g => Some (handleDerivative g)
    | None => integral_case
    end
  else integral_case.

Definition matchKnownEquationPattern (description : string)
  : option EquationGenerationResult :=
  let lowerDesc := toLowerCase description in
  match first_pattern lowerDesc equationPatterns with
  | Some p => Some (canonical p)
  | None => special_cases lowerDesc
  end.

Definition formatEquationResult (res : EquationGenerationResult)
  (format : string) (numbered : bool) : ToolResponse :=
  let formattedLatex :=
    if String.eqb format "inline" then "$" ++ latex res ++ "$"
    else if String.eqb format "display" then
      wrap_env (if numbered then "equation" else "equation*") (latex res)
    else if String.eqb format "align" then
      wrap_env (if numbered then "align" else "align*") (latex res)
    else if String.eqb format "gather" then
      wrap_env (if numbered then "gather" else "gather*") (latex res)
    else if String.eqb format "multline" then
      wrap_env (if numbered then "multline" else "multline*") (latex res)
    else wrap_env "equation*" (latex res) in
  mkResponse (mkResult formattedLatex (preview res) (components res) (explanation res)).

Definition validateEquation (latex : string) : list ValidationIssue :=
  let openBraces := count_char "{" latex in
  let closeBraces := count_char "}" latex in
  let e1 := if Nat.eqb openBraces closeBraces then []
            else [UnbalancedBraces ("Unbalanced braces: " ++ show_nat openBraces
                    ++ " opening and " ++ show_nat closeBraces ++ " closing braces")] in
  let dollarSigns := count_char "$" latex in
  let e2 := if Nat.eqb (Nat.modulo dollarSigns 2) 0 then []
            else [UnbalancedDelimiters "Unbalanced dollar signs for inline math"] in
  let beginEnvs := map fst (Scan.tags "begin" latex) in
  let endEnvs := map fst (Scan.tags "end" latex) in
  let n := length beginEnvs in
  let e3 :=
    if negb (Nat.eqb n (length endEnvs)) then
      [MismatchedEnvironment ("Mismatched environment tags: " ++ show_nat n
         ++ " \begin and " ++ show_nat (length endEnvs) ++ " \end tags")]
    else
      flat_map (fun i =>
        let beginEnv := Scan.env_name "begin" (nth i beginEnvs EmptyString) in
        let endEnv := Scan.env_name "end" (nth (n - 1 - i) endEnvs EmptyString) in
        if String.eqb beginEnv endEnv then []
        else [MismatchedEnvironment ("Mismatched environment: \begin{" ++ beginEnv
                ++ "} and \end{" ++ endEnv ++ "}")])
      (seq 0 n) in
  let e4 := flat_map (fun seq_ =>
              let command := Scan.substring1 seq_ in
              if Symbols.isValidCommand command then []
              else [UnknownCommand ("Potentially undefined control sequence: " ++ seq_)])
            (Scan.commands latex) in
  e1 ++ e2 ++ e3 ++ e4.

Record EquationGenerationParams := mkParams {
  description : string;
  format : string;
  numbered : bool;
  additionalContext : string
}.

(** [generateEquation]; [generateEquationWithClaude] is the external
    collaborator [gen], returning an error message or a result. *)
Definition generateEquation
  (gen : string -> string -> bool -> string -> string + EquationGenerationResult)
  (params : EquationGenerationParams) : string + ToolResponse :=
  match matchKnownEquationPattern (description params) with
  | Some patternMatch =>
      inr (formatEquationResult patternMatch (format params) (numbered params))
  | None =>
      match gen (description params) (format params) (numbered params)
                (additionalContext params) with
      | inl msg => inl ("Failed to generate equation: " ++ msg)
      | inr equationResult => inr (mkResponse equationResult)
      end
  end.

End Advanced.

(* ================================================================== *)
(** * Properties *)

(** ** Result formatter *)

Definition known_formats : list string :=
  ["inline"; "display"; "align"; "gather"; "multline"].

Ltac split_formats :=
  repeat match goal with
  | |- context [String.eqb ?f ?lit] =>
      destruct (String.eqb_spec f lit); subst
  end.

Lemma compact_format_frame (src : EquationGenerationResult) (fmt : string) (numbered : bool) :
  let out := result (Compact.formatEquationResult src fmt numbered) in
  preview out = preview src /\ components out = components src /\
  explanation out = explanation src.
Proof. repeat split. Qed.

Lemma advanced_format_frame (src : EquationGenerationResult) (fmt : string) (numbered : bool) :
  let out := result (Advanced.formatEquationResult src fmt numbered) in
  preview out = preview src /\ components out = components src /\
  explanation out = explanation src.
Proof. repeat split. Qed.

(** ** Validator: counting helpers *)

Lemma filter_flat_map_nil {A B} (f : B -> bool) (g : A -> list B) (l : list A) :
  (forall x, filter f (g x) = []) -> filter f (flat_map g l) = [].
Proof.
  intros H; induction l as [|x l IH]; simpl; [reflexivity|].
  rewrite filter_app, H, IH; reflexivity.
Qed.

Lemma mod2_eqb_odd (n : nat) : Nat.eqb (Nat.modulo n 2) 0 = negb (Nat.odd n).
Proof.
  induction n as [|n IH]; [reflexivity|].
  rewrite Nat.odd_succ, <- Nat.negb_odd, Bool.negb_involutive.
  destruct (Nat.odd n); cbn [negb] in IH |- *.
  - apply Nat.eqb_neq in IH; apply Nat.eqb_eq.
    pose proof (Nat.mod_upper_bound n 2); pose proof (Nat.div_mod_eq n 2).
    pose proof (Nat.mod_upper_bound (S n) 2); pose proof (Nat.div_mod_eq (S n) 2).
    lia.
  - apply Nat.eqb_eq in IH; apply Nat.eqb_neq.
    pose proof (Nat.div_mod_eq n 2).
    pose proof (Nat.mod_upper_bound (S n) 2); pose proof (Nat.div_mod_eq (S n) 2).
    lia.
Qed.

Ltac kinds_of_validator :=
  repeat first
    [ rewrite filter_app
    | rewrite (filter_flat_map_nil _ _ _
        (fun x => ltac:(repeat match goal with |- context [if ?b then _ else _] =>
                            destruct b end; reflexivity))) ].

Lemma existsb_filter {A} (f : A -> bool) (l : list A) :
  existsb f l = match filter f l with [] => false | _ :: _ => true end.
Proof. induction l as [|x l IH]; simpl; [reflexivity|]. destruct (f x); auto. Qed.

Ltac destruct_ifs :=
  repeat match goal with |- context [if ?b then _ else _] => destruct b end.

Ltac filter_issues :=
  repeat rewrite filter_app;
  repeat rewrite (filter_flat_map_nil _ _ _)
    by (intros; destruct_ifs; reflexivity).

Lemma compact_braces (s : string) :
  filter is_braces (Compact.validateEquation s) =
  if Nat.eqb (JS.count_char "{" s) (JS.count_char "}" s) then []
  else [UnbalancedBraces ("Unbalanced braces (" ++ JS.show_nat (JS.count_char "{" s) ++ "/"
                          ++ JS.show_nat (JS.count_char "}" s) ++ ").")].
Proof.
  unfold Compact.validateEquation; cbv zeta. filter_issues.
  destruct_ifs; filter_issues; reflexivity.
Qed.

Lemma advanced_braces (s : string) :
  filter is_braces (Advanced.validateEquation s) =
  if Nat.eqb (JS.count_char "{" s) (JS.count_char "}" s) then []
  else [UnbalancedBraces ("Unbalanced braces: " ++ JS.show_nat (JS.count_char "{" s)
          ++ " opening and " ++ JS.show_nat (JS.count_char "}" s) ++ " closing braces")].
Proof.
  unfold Advanced.validateEquation; cbv zeta. filter_issues.
  destruct_ifs; filter_issues; reflexivity.
Qed.

Lemma compact_delims (s : string) :
  filter is_delims (Compact.validateEquation s) =
  if Nat.odd (JS.count_char "$" s) then [UnbalancedDelimiters "Unbalanced $ delimiters."]
  else [].
Proof.
  unfold Compact.validateEquation; cbv zeta. filter_issues.
  rewrite mod2_eqb_odd. destruct (Nat.odd (JS.count_char "$" s)); cbn [negb];
    destruct_ifs; filter_issues; reflexivity.
Qed.

Lemma advanced_delims (s : string) :
  filter is_delims (Advanced.validateEquation s) =
  if Nat.odd (JS.count_char "$" s)
  then [UnbalancedDelimiters "Unbalanced dollar signs for inline math"] else [].
Proof.
  unfold Advanced.validateEquation; cbv zeta. filter_issues.
  rewrite mod2_eqb_odd. destruct (Nat.odd (JS.count_char "$" s)); cbn [negb];
    destruct_ifs; filter_issues; reflexivity.
Qed.

Lemma compact_env_equal_counts (s : string) :
  length (Scan.tags "begin" s) = length (Scan.tags "end" s) ->
  filter is_env (Compact.validateEquation s) = [].
Proof.
  intros Hn. unfold Compact.validateEquation; cbv zeta. filter_issues.
  rewrite Hn, Nat.eqb_refl. destruct_ifs; filter_issues; reflexivity.
Qed.

(** ** Claims on the formatter and on the brace and dollar checks *)

(** C6: with [format = "inline"] the [numbered] flag is ignored, in both
    formatters, and the body is wrapped in single dollar signs. *)
Theorem inline_ignores_numbered (src : EquationGenerationResult) :
  (Compact.formatEquationResult src "inline" true =
   Compact.formatEquationResult src "inline" false /\
   latex (result (Compact.formatEquationResult src "inline" false)) =
   "$" ++ latex src ++ "$") /\
  (Advanced.formatEquationResult src "inline" true =
   Advanced.formatEquationResult src "inline" false /\
   latex (result (Advanced.formatEquationResult src "inline" false)) =
   "$" ++ latex src ++ "$").
Proof. repeat split. Qed.

(** C10: both formatters copy [preview], [components] and [explanation]
    of their input unchanged; only [latex] is rewritten. *)
Theorem format_frames_non_latex_fields
  (src : EquationGenerationResult) (fmt : string) (numbered : bool) :
  (preview (result (Compact.formatEquationResult src fmt numbered)) = preview src /\
   components (result (Compact.formatEquationResult src fmt numbered)) = components src /\
   explanation (result (Compact.formatEquationResult src fmt numbered)) = explanation src) /\
  (preview (result (Advanced.formatEquationResult src fmt numbered)) = preview src /\
   components (result (Advanced.formatEquationResult src fmt numbered)) = components src /\
   explanation (result (Advanced.formatEquationResult src fmt numbered)) = explanation src).
Proof.
  destruct (compact_format_frame src fmt numbered) as (H1 & H2 & H3).
  destruct (advanced_format_frame src fmt numbered) as (H4 & H5 & H6).
  repeat split; assumption.
Qed.

(** C3 (corrected): for a format outside the five known ones, the
    advanced formatter wraps the body in [equation*], while the compact
    formatter of equation-generator.ts returns the body unwrapped. *)
Theorem unknown_format_fallback
  (src : EquationGenerationResult) (fmt : string) (numbered : bool)
  (Hfmt : ~ In fmt known_formats) :
  latex (result (Advanced.formatEquationResult src fmt numbered)) =
  wrap_env "equation*" (latex src) /\
  latex (result (Compact.formatEquationResult src fmt numbered)) = latex src.
Proof.
  unfold known_formats in Hfmt; simpl in Hfmt.
  unfold Advanced.formatEquationResult, Compact.formatEquationResult; cbv zeta.
  split_formats; cbn [result latex]; try tauto; split; reflexivity.
Qed.

Lemma unknown_format_fallback_witness :
  ~ In "equation" known_formats /\
  latex (result (Advanced.formatEquationResult (mkResult "x" "x" None None) "equation" true)) =
  wrap_env "equation*" "x" /\
  latex (result (Compact.formatEquationResult (mkResult "x" "x" None None) "equation" true)) = "x".
Proof.
  assert (H : ~ In "equation" known_formats) by (simpl; intuition discriminate).
  split; [exact H|].
  exact (unknown_format_fallback (mkResult "x" "x" None None) "equation" true H).
Defined.

(** C3 counterexample: the compact formatter does not fall back to
    [equation*] on the unknown format "equation". *)
Lemma unknown_format_compact_unwrapped :
  ~ In "equation" known_formats /\
  latex (result (Compact.formatEquationResult (mkResult "x" "x" None None) "equation" false))
  <> wrap_env "equation*" "x".
Proof. split; [simpl; intuition discriminate | vm_compute; discriminate]. Qed.

(** C7: an [UnbalancedBraces] issue appears exactly when the numbers of
    ['{'] and ['}'] differ, and its text contains both numbers. *)
Theorem unbalanced_braces_iff (s : string) :
  (existsb is_braces (Compact.validateEquation s) =
   negb (Nat.eqb (JS.count_char "{" s) (JS.count_char "}" s)) /\
   Forall (fun i => exists a b d, issue_text i =
             a ++ JS.show_nat (JS.count_char "{" s) ++ b ++ JS.show_nat (JS.count_char "}" s) ++ d)
          (filter is_braces (Compact.validateEquation s))) /\
  (existsb is_braces (Advanced.validateEquation s) =
   negb (Nat.eqb (JS.count_char "{" s) (JS.count_char "}" s)) /\
   Forall (fun i => exists a b d, issue_text i =
             a ++ JS.show_nat (JS.count_char "{" s) ++ b ++ JS.show_nat (JS.count_char "}" s) ++ d)
          (filter is_braces (Advanced.validateEquation s))).
Proof.
  rewrite !existsb_filter, compact_braces, advanced_braces.
  destruct (Nat.eqb _ _); cbn [negb]; repeat split; repeat constructor.
  - exists "Unbalanced braces (", "/", ")."; reflexivity.
  - exists "Unbalanced braces: ", " opening and ", " closing braces"; reflexivity.
Qed.

(** C8: an [UnbalancedDelimiters] issue appears exactly when the number
    of ['$'] is odd; "$x$$" yields exactly that one issue. *)
Theorem unbalanced_dollars_iff_odd (s : string) :
  existsb is_delims (Compact.validateEquation s) = Nat.odd (JS.count_char "$" s) /\
  existsb is_delims (Advanced.validateEquation s) = Nat.odd (JS.count_char "$" s) /\
  Compact.validateEquation "$x$$" = [UnbalancedDelimiters "Unbalanced $ delimiters."] /\
  Advanced.validateEquation "$x$$" =
  [UnbalancedDelimiters "Unbalanced dollar signs for inline math"].
Proof.
  rewrite !existsb_filter, compact_delims, advanced_delims.
  destruct (Nat.odd (JS.count_char "$" s)); (split; [reflexivity|]); (split; [reflexivity|]);
    split; vm_compute; reflexivity.
Qed.

(** ** Edit distance *)

Section EditDistance.
Import Symbols.

Lemma edit_rec_cons_cons (x y : ascii) (u v : list ascii) :
  edit_rec (x :: u) (y :: v) =
  if Ascii.eqb x y then edit_rec u v
  else 1 + Nat.min (Nat.min (edit_rec u v) (edit_rec (x :: u) v)) (edit_rec u (y :: v)).
Proof. reflexivity. Qed.

Lemma edit_rec_nil_r (u : list ascii) : edit_rec u [] = length u.
Proof. destruct u; reflexivity. Qed.

Lemma edit_rec_sym (u v : list ascii) : edit_rec u v = edit_rec v u.
Proof.
  revert v; induction u as [|x u IHu]; intros v.
  - rewrite edit_rec_nil_r; reflexivity.
  - induction v as [|y v IHv]; [reflexivity|].
    rewrite !edit_rec_cons_cons, Ascii.eqb_sym, IHv, (IHu v), (IHu (y :: v)).
    destruct (Ascii.eqb y x); [reflexivity|lia].
Qed.

Lemma row_go_cols (c : ascii) (u : list ascii) (a : string) (acc : list ascii) :
  row_go c a (edit_rec u acc) (edit_rec (c :: u) acc) (cols u acc a) =
  cols (c :: u) acc a.
Proof.
  revert acc; induction a as [|x a IH]; intros acc; [reflexivity|].
  cbn [cols row_go]. rewrite <- edit_rec_cons_cons, IH. reflexivity.
Qed.

Lemma cols_nil (a : string) (acc : list ascii) :
  cols [] acc a = seq (S (length acc)) (String.length a).
Proof.
  revert acc; induction a as [|x a IH]; intros acc; [reflexivity|].
  cbn [cols String.length seq]. rewrite IH. reflexivity.
Qed.

Lemma rows_go_cols (a b : string) (u : list ascii) :
  rows_go b a (edit_rec u [] :: cols u [] a) (length u) =
  edit_rec (rev (list_ascii_of_string b) ++ u) [] ::
  cols (rev (list_ascii_of_string b) ++ u) [] a.
Proof.
  revert u; induction b as [|c b IH]; intros u; [reflexivity|].
  cbn [rows_go list_ascii_of_string rev]. unfold next_row; cbn [hd tl].
  change (S (length u)) with (edit_rec (c :: u) []).
  rewrite row_go_cols.
  change (rows_go b a (edit_rec (c :: u) [] :: cols (c :: u) [] a) (edit_rec (c :: u) []))
    with (rows_go b a (edit_rec (c :: u) [] :: cols (c :: u) [] a) (length (c :: u))).
  rewrite IH, <- app_assoc. reflexivity.
Qed.

Lemma nth_cols (U : list ascii) (a : string) (acc : list ascii) :
  nth (String.length a) (edit_rec U acc :: cols U acc a) 0 =
  edit_rec U (rev (list_ascii_of_string a) ++ acc).
Proof.
  revert acc; induction a as [|x a IH]; intros acc; [reflexivity|].
  cbn [String.length cols list_ascii_of_string rev].
  change (nth (S (String.length a)) (edit_rec U acc :: edit_rec U (x :: acc) :: cols U (x :: acc) a) 0)
    with (nth (String.length a) (edit_rec U (x :: acc) :: cols U (x :: acc) a) 0).
  rewrite IH, <- app_assoc. reflexivity.
Qed.

(** [dist a b] is [0] on equal strings and otherwise the recurrence on
    the reversed strings. *)
Lemma dist_edit_rec (a b : string) :
  dist a b =
  if String.eqb a b then 0
  else edit_rec (rev (list_ascii_of_string b)) (rev (list_ascii_of_string a)).
Proof.
  unfold dist. destruct (String.eqb a b); [reflexivity|].
  replace (seq 0 (S (String.length a))) with (edit_rec [] [] :: cols [] [] a)
    by (rewrite cols_nil; reflexivity).
  change 0 with (length (@nil ascii)) at 2.
  rewrite rows_go_cols, !app_nil_r, nth_cols, app_nil_r. reflexivity.
Qed.

End EditDistance.

(** C5: the edit distance of [getSuggestions] is symmetric and is [0] on
    equal strings, in particular on every registry name. *)
Theorem dist_symmetric_zero_diagonal :
  (forall a b : string, Symbols.dist a b = Symbols.dist b a) /\
  (forall s : string, Symbols.dist s s = 0) /\
  Forall (fun s => Symbols.dist s s = 0) Symbols.VALID_MATH_COMMANDS.
Proof.
  assert (Hz : forall s, Symbols.dist s s = 0)
    by (intros s; unfold Symbols.dist; rewrite String.eqb_refl; reflexivity).
  split; [|split; [exact Hz | apply Forall_forall; intros s _; apply Hz]].
  intros a b. rewrite !dist_edit_rec, String.eqb_sym.
  destruct (String.eqb b a); [reflexivity | apply edit_rec_sym].
Qed.

(** ** Suggestion ranking *)

Section Ranking.
Import Symbols.

Lemma insert_by_d_perm (x : string * nat) (l : list (string * nat)) :
  Permutation (insert_by_d x l) (x :: l).
Proof.
  induction l as [|y l IH]; simpl; [reflexivity|].
  destruct (Nat.leb (snd x) (snd y)); [reflexivity|].
  rewrite IH. apply perm_swap.
Qed.

Lemma sort_by_d_perm (l : list (string * nat)) : Permutation (sort_by_d l) l.
Proof.
  induction l as [|x l IH]; simpl; [reflexivity|].
  rewrite insert_by_d_perm, IH. reflexivity.
Qed.

Lemma insert_by_d_sorted (x : string * nat) (l : list (string * nat)) :
  Sorted le_d l -> Sorted le_d (insert_by_d x l).
Proof.
  induction l as [|y l IH]; intros Hs; simpl; [repeat constructor|].
  destruct (Nat.leb (snd x) (snd y)) eqn:Hxy.
  - apply Nat.leb_le in Hxy. constructor; [exact Hs | constructor; exact Hxy].
  - apply Nat.leb_gt in Hxy. apply Sorted_inv in Hs as [Hs Hhd].
    constructor; [apply IH, Hs|].
    destruct l as [|z l]; simpl; [constructor; unfold le_d; lia|].
    inversion Hhd; subst.
    destruct (Nat.leb (snd x) (snd z)); constructor; unfold le_d; [lia | assumption].
Qed.

Lemma sort_by_d_sorted (l : list (string * nat)) : Sorted le_d (sort_by_d l).
Proof.
  induction l as [|x l IH]; simpl; [constructor|]. apply insert_by_d_sorted, IH.
Qed.

(** Stability: among elements of one distance, the input order is kept. *)
Lemma insert_by_d_stable (k : nat) (x : string * nat) (l : list (string * nat)) :
  filter (fun p => Nat.eqb (snd p) k) (insert_by_d x l) =
  filter (fun p => Nat.eqb (snd p) k) (x :: l).
Proof.
  induction l as [|y l IH]; simpl; [reflexivity|].
  destruct (Nat.leb (snd x) (snd y)) eqn:Hxy; [reflexivity|].
  apply Nat.leb_gt in Hxy. simpl. rewrite IH. simpl.
  destruct (Nat.eqb_spec (snd y) k), (Nat.eqb_spec (snd x) k); try reflexivity; lia.
Qed.

Lemma sort_by_d_stable (k : nat) (l : list (string * nat)) :
  filter (fun p => Nat.eqb (snd p) k) (sort_by_d l) =
  filter (fun p => Nat.eqb (snd p) k) l.
Proof.
  induction l as [|x l IH]; simpl; [reflexivity|].
  rewrite insert_by_d_stable. simpl. rewrite IH. reflexivity.
Qed.

Lemma Sorted_firstn {A} (R : A -> A -> Prop) (n : nat) (l : list A) :
  Sorted R l -> Sorted R (firstn n l).
Proof.
  revert l; induction n as [|n IH]; intros l Hs; [constructor|].
  destruct l as [|x l]; simpl; [constructor|].
  apply Sorted_inv in Hs as [Hs Hhd]. constructor; [apply IH, Hs|].
  destruct n, l; simpl; constructor. inversion Hhd; assumption.
Qed.

Lemma sorted_names (bad : string) (l : list (string * nat)) :
  Forall (tagged bad) l -> Sorted le_d l ->
  Sorted (fun x y => dist bad x <= dist bad y) (map fst l).
Proof.
  induction l as [|x l IH]; intros Ht Hs; simpl; [constructor|].
  inversion Ht as [|? ? Hx Hl]; subst.
  apply Sorted_inv in Hs as [Hs Hhd]. constructor; [apply IH; assumption|].
  destruct l as [|y l]; simpl; constructor.
  inversion Hhd; subst. inversion Hl; subst. unfold le_d, tagged in *. lia.
Qed.

Lemma filter_names (bad : string) (k : nat) (l : list (string * nat)) :
  Forall (tagged bad) l ->
  filter (fun c => Nat.eqb (dist bad c) k) (map fst l) =
  map fst (filter (fun p => Nat.eqb (snd p) k) l).
Proof.
  induction l as [|x l IH]; intros Ht; simpl; [reflexivity|].
  inversion Ht as [|? ? Hx Hl]; subst. unfold tagged in Hx. rewrite Hx.
  destruct (Nat.eqb _ k); simpl; rewrite IH by exact Hl; reflexivity.
Qed.

Lemma tagged_pairs (bad : string) (registry : list string) :
  Forall (tagged bad) (map (fun cmd => (cmd, dist bad cmd)) registry).
Proof.
  apply Forall_forall. intros p Hp. apply in_map_iff in Hp as (c & <- & _).
  reflexivity.
Qed.

Lemma names_of_pairs (bad : string) (registry : list string) :
  map fst (map (fun cmd => (cmd, dist bad cmd)) registry) = registry.
Proof. rewrite map_map. apply map_id. Qed.

End Ranking.

(** C4: [getSuggestions] over any registry (given in iteration order)
    returns [min 5 (size)] names in non-decreasing distance; they are the
    first five of the registry stably sorted by distance, i.e. ties keep
    the registry's insertion order. *)
Theorem getSuggestions_ranked (registry : list string) (bad : string) :
  length (Symbols.getSuggestions_in registry bad) = Nat.min 5 (length registry) /\
  Sorted (fun x y => Symbols.dist bad x <= Symbols.dist bad y)
         (Symbols.getSuggestions_in registry bad) /\
  exists ranked : list string,
    Permutation ranked registry /\
    Sorted (fun x y => Symbols.dist bad x <= Symbols.dist bad y) ranked /\
    (forall k : nat,
       filter (fun c => Nat.eqb (Symbols.dist bad c) k) ranked =
       filter (fun c => Nat.eqb (Symbols.dist bad c) k) registry) /\
    Symbols.getSuggestions_in registry bad = firstn 5 ranked.
Proof.
  set (P := map (fun cmd => (cmd, Symbols.dist bad cmd)) registry).
  assert (Hperm := sort_by_d_perm P).
  assert (Ht : Forall (Symbols.tagged bad) (Symbols.sort_by_d P)).
  { apply Forall_forall; intros x Hx.
    apply (Permutation_in _ Hperm) in Hx.
    exact (proj1 (Forall_forall _ _) (tagged_pairs bad registry) x Hx). }
  assert (Hsorted := sorted_names bad _ Ht (sort_by_d_sorted P)).
  assert (Hout : Symbols.getSuggestions_in registry bad =
                 firstn 5 (map fst (Symbols.sort_by_d P)))
    by (unfold Symbols.getSuggestions_in; rewrite firstn_map; reflexivity).
  split; [|split].
  - rewrite Hout, length_firstn, length_map, (Permutation_length Hperm).
    unfold P; rewrite length_map; reflexivity.
  - rewrite Hout. apply Sorted_firstn, Hsorted.
  - exists (map fst (Symbols.sort_by_d P)). repeat split.
    + rewrite <- (names_of_pairs bad registry). apply Permutation_map, Hperm.
    + exact Hsorted.
    + intros k. rewrite (filter_names bad k _ Ht), sort_by_d_stable. unfold P.
      rewrite <- (filter_names bad k _ (tagged_pairs bad registry)), names_of_pairs.
      reflexivity.
    + exact Hout.
Qed.

(** ** Environment pairing *)

Lemma string_app_assoc (a b c : string) : (a ++ b) ++ c = a ++ (b ++ c).
Proof. induction a as [|x a IH]; simpl; [reflexivity|]. rewrite IH; reflexivity. Qed.

Lemma string_app_nil_r (a : string) : a ++ EmptyString = a.
Proof. induction a as [|x a IH]; simpl; [reflexivity|]. rewrite IH; reflexivity. Qed.

Lemma strip_prefix_app (p s : string) : JS.strip_prefix p (p ++ s) = Some s.
Proof.
  induction p as [|c p IH]; simpl; [reflexivity|]. rewrite Ascii.eqb_refl. exact IH.
Qed.

Lemma run_not_rbrace_close (t r rest x : string) :
  Scan.run_not_rbrace t = (r, rest) ->
  Scan.run_not_rbrace (r ++ String "}" x) = (r, String "}" x).
Proof.
  revert r rest; induction t as [|c t IH]; intros r rest H; simpl in H.
  - inversion H; subst. reflexivity.
  - destruct (Ascii.eqb c Scan.char_rbrace) eqn:Hc.
    + inversion H; subst. reflexivity.
    + destruct (Scan.run_not_rbrace t) as [r' rest'] eqn:Ht. inversion H; subst.
      simpl. rewrite Hc, (IH r' _ eq_refl). reflexivity.
Qed.

Lemma tag_at_rebuilt (kw t name rest x : string) :
  Scan.run_not_rbrace t = (name, rest) -> name <> EmptyString ->
  exists m, Scan.tag_at kw (("\" ++ kw ++ "{") ++ (name ++ String "}" x)) = Some (m, name, x).
Proof.
  intros Hr Hn. unfold Scan.tag_at.
  rewrite strip_prefix_app, (run_not_rbrace_close _ _ _ x Hr).
  destruct name as [|n0 name']; [congruence|]. eexists; reflexivity.
Qed.

Lemma tags_go_cons (fuel : nat) (kw s m name rest : string) :
  Scan.tag_at kw s = Some (m, name, rest) ->
  Scan.tags_go (S fuel) kw s = (m, name) :: Scan.tags_go fuel kw rest.
Proof. intros H. cbn [Scan.tags_go]. rewrite H. reflexivity. Qed.

(** A matched tag yields its own name when matched again. *)
Lemma tag_at_env_name (kw s m name rest : string) :
  Scan.tag_at kw s = Some (m, name, rest) -> Scan.env_name kw m = name.
Proof.
  unfold Scan.tag_at.
  destruct (JS.strip_prefix ("\" ++ kw ++ "{") s) as [t|]; [|discriminate].
  destruct (Scan.run_not_rbrace t) as [r tl] eqn:Hr.
  destruct r as [|r0 r']; [discriminate|].
  destruct tl as [|c tl']; [discriminate|].
  destruct (Ascii.eqb c Scan.char_rbrace) eqn:Hc; [|discriminate].
  intros H; inversion H; subst; clear H.
  match goal with
  | |- Scan.env_name kw ?M = _ =>
      replace M with (("\" ++ kw ++ "{") ++ (String r0 r' ++ String "}" EmptyString))
        by (rewrite !string_app_assoc; reflexivity)
  end.
  destruct (tag_at_rebuilt kw t (String r0 r') _ EmptyString Hr
              ltac:(discriminate)) as [m Htag].
  unfold Scan.env_name, Scan.tags. rewrite (tags_go_cons _ _ _ _ _ _ Htag).
  reflexivity.
Qed.

Lemma tags_go_env_name (kw : string) (fuel : nat) (s m name : string) :
  In (m, name) (Scan.tags_go fuel kw s) -> Scan.env_name kw m = name.
Proof.
  revert s; induction fuel as [|fuel IH]; intros s Hin; simpl in Hin; [contradiction|].
  destruct (Scan.tag_at kw s) as [[[m' name'] rest]|] eqn:Ht.
  - destruct Hin as [Heq|Hin]; [inversion Heq; subst; eapply tag_at_env_name; exact Ht|].
    eapply IH; exact Hin.
  - destruct s as [|c s']; [contradiction|]. eapply IH; exact Hin.
Qed.

Lemma tags_env_name (kw s m name : string) :
  In (m, name) (Scan.tags kw s) -> Scan.env_name kw m = name.
Proof. apply tags_go_env_name. Qed.

Lemma nth_tag_name (kw s : string) (i : nat) :
  i < length (Scan.tags kw s) ->
  Scan.env_name kw (nth i (map fst (Scan.tags kw s)) EmptyString) =
  nth i (map snd (Scan.tags kw s)) EmptyString.
Proof.
  intros Hi.
  assert (H1 : nth i (map fst (Scan.tags kw s)) EmptyString =
               fst (nth i (Scan.tags kw s) (EmptyString, EmptyString)))
    by exact (map_nth fst (Scan.tags kw s) (EmptyString, EmptyString) i).
  assert (H2 : nth i (map snd (Scan.tags kw s)) EmptyString =
               snd (nth i (Scan.tags kw s) (EmptyString, EmptyString)))
    by exact (map_nth snd (Scan.tags kw s) (EmptyString, EmptyString) i).
  rewrite H1, H2.
  destruct (nth i (Scan.tags kw s) (EmptyString, EmptyString)) as [m name] eqn:Hn.
  cbn [fst snd]. apply (tags_env_name kw s). rewrite <- Hn. apply nth_In, Hi.
Qed.

Lemma flat_map_ext_in {A B} (f g : A -> list B) (l : list A) :
  (forall x, In x l -> f x = g x) -> flat_map f l = flat_map g l.
Proof.
  intros H; induction l as [|x l IH]; simpl; [reflexivity|].
  rewrite H by (left; reflexivity). rewrite IH by (intros; apply H; right; assumption).
  reflexivity.
Qed.

Lemma flat_map_seq_combine {B} (G : string -> string -> list B) (X Y : list string) :
  length X = length Y ->
  flat_map (fun i => G (nth i X EmptyString) (nth i Y EmptyString)) (seq 0 (length X)) =
  flat_map (fun p => G (fst p) (snd p)) (combine X Y).
Proof.
  revert Y; induction X as [|x X IH]; intros Y Hl; [reflexivity|].
  destruct Y as [|y Y]; [discriminate|]. injection Hl as Hl.
  cbn [length seq flat_map combine nth fst snd]. f_equal.
  rewrite <- seq_shift, flat_map_concat_map, map_map, <- flat_map_concat_map.
  apply IH, Hl.
Qed.

Lemma filter_flat_map_all {A B} (f : B -> bool) (g : A -> list B) (l : list A) :
  (forall x, filter f (g x) = g x) -> filter f (flat_map g l) = flat_map g l.
Proof.
  intros H; induction l as [|x l IH]; simpl; [reflexivity|].
  rewrite filter_app, H, IH; reflexivity.
Qed.

Lemma advanced_env_pairs (s : string) :
  length (Scan.tags "begin" s) = length (Scan.tags "end" s) ->
  filter is_env (Advanced.validateEquation s) =
  flat_map (fun p => if String.eqb (fst p) (snd p) then []
                     else [MismatchedEnvironment ("Mismatched environment: \begin{" ++ fst p
                             ++ "} and \end{" ++ snd p ++ "}")])
           (combine (map snd (Scan.tags "begin" s)) (rev (map snd (Scan.tags "end" s)))).
Proof.
  intros Hn. unfold Advanced.validateEquation; cbv zeta. filter_issues.
  rewrite !length_map, Hn, Nat.eqb_refl. cbn [negb].
  rewrite (filter_flat_map_all _ _ _) by (intros; destruct_ifs; reflexivity).
  destruct_ifs; filter_issues; cbn [filter app]; rewrite ?app_nil_r.
  all: rewrite <- (flat_map_seq_combine
         (fun b e => if String.eqb b e then []
                     else [MismatchedEnvironment ("Mismatched environment: \begin{" ++ b
                             ++ "} and \end{" ++ e ++ "}")])
         (map snd (Scan.tags "begin" s)) (rev (map snd (Scan.tags "end" s))))
       by (rewrite length_rev, !length_map; exact Hn).
  all: rewrite length_map, Hn; apply flat_map_ext_in; intros i Hi;
       apply in_seq in Hi; destruct Hi as [_ Hi]; rewrite Nat.add_0_l in Hi.
  all: assert (Hib : i < length (Scan.tags "begin" s)) by lia;
       rewrite (nth_tag_name "begin" s i Hib);
       rewrite (nth_tag_name "end" s (length (Scan.tags "end" s) - 1 - i)) by lia;
       rewrite rev_nth by (rewrite length_map; lia);
       rewrite length_map;
       replace (length (Scan.tags "end" s) - S i)
         with (length (Scan.tags "end" s) - 1 - i) by lia;
       reflexivity.
Qed.

(** C2 (corrected): with equal numbers of [\begin{..}] and [\end{..}]
    matches, the advanced validator pairs the i-th [\begin] with the
    (n-1-i)-th [\end] and reports each pair with different names, naming
    both; the compact validator of equation-generator.ts reports no
    environment issue at all in that case. On
    "\begin{align}x\end{gather}" the advanced validator returns exactly the
    one issue naming [align] and [gather], the compact one returns none. *)
Theorem env_pairing_validators :
  (forall s : string,
     length (Scan.tags "begin" s) = length (Scan.tags "end" s) ->
     filter is_env (Advanced.validateEquation s) =
     flat_map (fun p => if String.eqb (fst p) (snd p) then []
                        else [MismatchedEnvironment ("Mismatched environment: \begin{"
                                ++ fst p ++ "} and \end{" ++ snd p ++ "}")])
              (combine (map snd (Scan.tags "begin" s)) (rev (map snd (Scan.tags "end" s)))) /\
     filter is_env (Compact.validateEquation s) = []) /\
  Advanced.validateEquation "\begin{align}x\end{gather}" =
  [MismatchedEnvironment "Mismatched environment: \begin{align} and \end{gather}"] /\
  Compact.validateEquation "\begin{align}x\end{gather}" = [].
Proof.
  split; [|split; vm_compute; reflexivity].
  intros s Hn. split; [apply advanced_env_pairs, Hn | apply compact_env_equal_counts, Hn].
Qed.

Lemma env_pairing_validators_witness :
  length (Scan.tags "begin" "\begin{a}\begin{b}\end{a}\end{b}") =
  length (Scan.tags "end" "\begin{a}\begin{b}\end{a}\end{b}") /\
  filter is_env (Advanced.validateEquation "\begin{a}\begin{b}\end{a}\end{b}") =
  [MismatchedEnvironment "Mismatched environment: \begin{a} and \end{b}";
   MismatchedEnvironment "Mismatched environment: \begin{b} and \end{a}"] /\
  filter is_env (Compact.validateEquation "\begin{a}\begin{b}\end{a}\end{b}") = [].
Proof.
  assert (Hn : length (Scan.tags "begin" "\begin{a}\begin{b}\end{a}\end{b}") =
               length (Scan.tags "end" "\begin{a}\begin{b}\end{a}\end{b}"))
    by (vm_compute; reflexivity).
  destruct (proj1 env_pairing_validators _ Hn) as [Ha Hc].
  split; [exact Hn|]. split; [|exact Hc].
  rewrite Ha. vm_compute. reflexivity.
Defined.

(** C2 counterexample: the compact validator reports no
    [MismatchedEnvironment] issue on "\begin{align}x\end{gather}". *)
Lemma compact_validator_no_env_pairing :
  length (filter is_env (Compact.validateEquation "\begin{align}x\end{gather}")) <> 1.
Proof. vm_compute. discriminate. Qed.

(** ** Pattern matchers *)

Lemma toLowerCase_app (a b : string) :
  JS.toLowerCase (a ++ b) = JS.toLowerCase a ++ JS.toLowerCase b.
Proof. induction a as [|c a IH]; simpl; [reflexivity|]. rewrite IH; reflexivity. Qed.

Lemma startsWith_app (p s : string) : JS.startsWith (p ++ s) p = true.
Proof. unfold JS.startsWith. rewrite strip_prefix_app. reflexivity. Qed.

Lemma includes_of_startsWith (s p : string) :
  JS.startsWith s p = true -> JS.includes s p = true.
Proof. intros H. destruct s; simpl; rewrite H; reflexivity. Qed.

Lemma includes_app_l (a s p : string) :
  JS.includes s p = true -> JS.includes (a ++ s) p = true.
Proof.
  intros H; induction a as [|c a IH]; simpl; [exact H|].
  rewrite IH. apply Bool.orb_true_r.
Qed.

Lemma includes_mid (a p b : string) : JS.includes (a ++ p ++ b) p = true.
Proof. apply includes_app_l, includes_of_startsWith, startsWith_app. Qed.

Lemma strip_prefix_app_inv (p q s r : string) :
  JS.strip_prefix (p ++ q) s = Some r -> exists r', JS.strip_prefix p s = Some r'.
Proof.
  revert s; induction p as [|c p IH]; intros s H; simpl in *; [eauto|].
  destruct s as [|d s]; [discriminate|].
  destruct (Ascii.eqb c d); [eapply IH; exact H | discriminate].
Qed.

Lemma startsWith_app_inv (s p q : string) :
  JS.startsWith s (p ++ q) = true -> JS.startsWith s p = true.
Proof.
  unfold JS.startsWith. destruct (JS.strip_prefix (p ++ q) s) eqn:H; [|discriminate].
  destruct (strip_prefix_app_inv _ _ _ _ H) as [r' ->]. reflexivity.
Qed.

Lemma includes_app_inv (s p q : string) :
  JS.includes s (p ++ q) = true -> JS.includes s p = true.
Proof.
  induction s as [|c s IH]; intros H; simpl in *.
  - rewrite Bool.orb_false_r in H.
    apply startsWith_app_inv in H. rewrite H. reflexivity.
  - apply Bool.orb_true_iff in H as [H|H].
    + apply startsWith_app_inv in H. rewrite H. reflexivity.
    + rewrite IH by exact H. apply Bool.orb_true_r.
Qed.

Lemma first_pattern_nth (lower : string) (ps : list KnownPattern) (k : nat) (P : KnownPattern) :
  nth_error ps k = Some P ->
  existsb (JS.includes lower) (keys P) = true ->
  (forall j Q, j < k -> nth_error ps j = Some Q ->
     existsb (JS.includes lower) (keys Q) = false) ->
  first_pattern lower ps = Some P.
Proof.
  revert k; induction ps as [|Q ps IH]; intros k Hk HP Hbefore.
  - destruct k; discriminate.
  - destruct k as [|k]; simpl in Hk |- *.
    + inversion Hk; subst. rewrite HP. reflexivity.
    + rewrite (Hbefore 0 Q ltac:(lia) eq_refl).
      apply (IH k Hk HP). intros j R Hj HR. apply (Hbefore (S j) R); [lia | exact HR].
Qed.

Lemma first_pattern_none (lower : string) (ps : list KnownPattern) :
  Forall (fun Q => existsb (JS.includes lower) (keys Q) = false) ps ->
  first_pattern lower ps = None.
Proof.
  induction 1 as [|Q ps HQ _ IH]; simpl; [reflexivity|]. rewrite HQ. exact IH.
Qed.

Lemma trigger_found (P : KnownPattern) (T T' pre suf : string) :
  In T (keys P) -> JS.toLowerCase T' = T ->
  existsb (JS.includes (JS.toLowerCase (pre ++ T' ++ suf))) (keys P) = true.
Proof.
  intros HT Hlow. apply existsb_exists. exists T. split; [exact HT|].
  rewrite !toLowerCase_app, Hlow. apply includes_mid.
Qed.

Lemma fx_at_startsWith (alts : list string) (t g : string) :
  Advanced.fx_at alts t = Some g -> exists a, In a alts /\ JS.startsWith t a = true.
Proof.
  induction alts as [|a alts IH]; simpl; [discriminate|].
  destruct (Advanced.fx_after a t) eqn:Ha.
  - intros _. exists a. split; [left; reflexivity|].
    unfold Advanced.fx_after in Ha.
    destruct (JS.strip_prefix (a ++ " f(x) = ") t) eqn:Hs; [|discriminate].
    apply (startsWith_app_inv _ _ " f(x) = "). unfold JS.startsWith. rewrite Hs. reflexivity.
  - intros H. destruct (IH H) as (a' & Hin & Hs). exists a'. split; [right|]; assumption.
Qed.

Lemma fx_exec_includes (alts : list string) (s g : string) :
  Advanced.fx_exec alts s = Some g -> exists a, In a alts /\ JS.includes s a = true.
Proof.
  induction s as [|c s IH]; intros H; simpl in H.
  - destruct (Advanced.fx_at alts EmptyString) eqn:Ha; [|discriminate].
    destruct (fx_at_startsWith _ _ _ Ha) as (a & Hin & Hs).
    exists a. split; [exact Hin | apply includes_of_startsWith, Hs].
  - destruct (Advanced.fx_at alts (String c s)) eqn:Ha.
    + destruct (fx_at_startsWith _ _ _ Ha) as (a & Hin & Hs).
      exists a. split; [exact Hin | apply includes_of_startsWith, Hs].
    + destruct (IH H) as (a & Hin & Hi). exists a. split; [exact Hin|].
      simpl. rewrite Hi. apply Bool.orb_true_r.
Qed.

Lemma derivative_words (s g : string) :
  Advanced.fx_exec Advanced.derivative_alts s = Some g ->
  (JS.includes s "derivative" || JS.includes s "differentiate") = true.
Proof.
  intros H. destruct (fx_exec_includes _ _ _ H) as (a & [<-|[<-|[]]] & Hi).
  - change "derivative of" with ("derivative" ++ " of") in Hi.
    apply includes_app_inv in Hi. rewrite Hi. reflexivity.
  - rewrite Hi. apply Bool.orb_true_r.
Qed.

Lemma integral_words (s g : string) :
  Advanced.fx_exec Advanced.integral_alts s = Some g ->
  (JS.includes s "integral" || JS.includes s "integrate") = true.
Proof.
  intros H. destruct (fx_exec_includes _ _ _ H) as (a & [<-|[<-|[]]] & Hi).
  - change "integral of" with ("integral" ++ " of") in Hi.
    apply includes_app_inv in Hi. rewrite Hi. reflexivity.
  - rewrite Hi. apply Bool.orb_true_r.
Qed.

(** The word tests before the two regular expressions are implied by them. *)
Lemma special_cases_eq (s : string) :
  Advanced.special_cases s =
  match Advanced.fx_exec Advanced.derivative_alts s with
  | Some g => Some (Advanced.handleDerivative g)
  | None =>
      match Advanced.fx_exec Advanced.integral_alts s with
      | Some g => Some (Advanced.handleIntegration g)
      | None => None
      end
  end.
Proof.
  unfold Advanced.special_cases; cbv zeta.
  destruct (Advanced.fx_exec Advanced.derivative_alts s) as [g|] eqn:Hd.
  - rewrite (derivative_words _ _ Hd). reflexivity.
  - destruct (Advanced.fx_exec Advanced.integral_alts s) as [g|] eqn:Hi.
    + rewrite (integral_words _ _ Hi).
      destruct (JS.includes s "derivative" || JS.includes s "differentiate"); reflexivity.
    + destruct (JS.includes s "integral" || JS.includes s "integrate");
      destruct (JS.includes s "derivative" || JS.includes s "differentiate"); reflexivity.
Qed.

Lemma special_cases_none_iff (s : string) :
  Advanced.special_cases s = None <->
  Advanced.fx_exec Advanced.derivative_alts s = None /\
  Advanced.fx_exec Advanced.integral_alts s = None.
Proof.
  rewrite special_cases_eq.
  destruct (Advanced.fx_exec Advanced.derivative_alts s), (Advanced.fx_exec Advanced.integral_alts s);
    split; intros H; try discriminate; try (destruct H; discriminate); auto.
Qed.

Lemma no_trigger_of_forallb (lower : string) (ps : list KnownPattern) :
  forallb (fun Q => negb (existsb (JS.includes lower) (keys Q))) ps = true ->
  Forall (fun Q => existsb (JS.includes lower) (keys Q) = false) ps.
Proof.
  induction ps as [|Q ps IH]; simpl; intros H; constructor.
  - apply andb_prop in H as [H _]. destruct (existsb _ _); [discriminate | reflexivity].
  - apply andb_prop in H as [_ H]. exact (IH H).
Qed.

(** C1 (corrected): both matchers return the canonical result of the
    earliest table pattern one of whose trigger phrases occurs in the
    lowercased description, so "prefix + T + suffix", T in any letter case,
    yields T's pattern unless an earlier pattern also occurs. Without any
    trigger phrase the compact matcher returns null, while the advanced
    matcher returns null exactly when neither the derivative nor the
    integral regular expression matches the lowercased description. *)
Theorem pattern_matchers_earliest_trigger :
  (forall k P T T' pre suf,
     nth_error Compact.patterns k = Some P -> In T (keys P) -> JS.toLowerCase T' = T ->
     (forall j Q, j < k -> nth_error Compact.patterns j = Some Q ->
        existsb (JS.includes (JS.toLowerCase (pre ++ T' ++ suf))) (keys Q) = false) ->
     Compact.matchKnownEquationPattern (pre ++ T' ++ suf) = Some (Compact.canonical P)) /\
  (forall k P T T' pre suf,
     nth_error Advanced.equationPatterns k = Some P -> In T (keys P) ->
     JS.toLowerCase T' = T ->
     (forall j Q, j < k -> nth_error Advanced.equationPatterns j = Some Q ->
        existsb (JS.includes (JS.toLowerCase (pre ++ T' ++ suf))) (keys Q) = false) ->
     Advanced.matchKnownEquationPattern (pre ++ T' ++ suf) = Some (Advanced.canonical P)) /\
  (forall d,
     Forall (fun Q => existsb (JS.includes (JS.toLowerCase d)) (keys Q) = false)
            Compact.patterns ->
     Compact.matchKnownEquationPattern d = None) /\
  (forall d,
     Forall (fun Q => existsb (JS.includes (JS.toLowerCase d)) (keys Q) = false)
            Advanced.equationPatterns ->
     (Advanced.matchKnownEquationPattern d = None <->
      Advanced.fx_exec Advanced.derivative_alts (JS.toLowerCase d) = None /\
      Advanced.fx_exec Advanced.integral_alts (JS.toLowerCase d) = None)).
Proof.
  split; [|split; [|split]].
  - intros k P T T' pre suf Hk HT Hlow Hbefore.
    unfold Compact.matchKnownEquationPattern.
    rewrite (first_pattern_nth _ _ k P Hk (trigger_found P T T' pre suf HT Hlow) Hbefore).
    reflexivity.
  - intros k P T T' pre suf Hk HT Hlow Hbefore.
    unfold Advanced.matchKnownEquationPattern.
    rewrite (first_pattern_nth _ _ k P Hk (trigger_found P T T' pre suf HT Hlow) Hbefore).
    reflexivity.
  - intros d Hnone. unfold Compact.matchKnownEquationPattern.
    rewrite (first_pattern_none _ _ Hnone). reflexivity.
  - intros d Hnone. unfold Advanced.matchKnownEquationPattern.
    rewrite (first_pattern_none _ _ Hnone). apply special_cases_none_iff.
Qed.

Lemma pattern_matchers_earliest_trigger_witness :
  Compact.matchKnownEquationPattern ("" ++ "QUADRATIC FORMULA" ++ " please") =
  Some (Compact.canonical (mkPattern ["quadratic formula"]
    "x = \frac{-b \pm \sqrt{b^2 - 4ac}}{2a}" None "Solution to ax²+bx+c=0.")) /\
  Advanced.matchKnownEquationPattern ("what is " ++ "Euler's Formula" ++ "?") =
  option_map Advanced.canonical (nth_error Advanced.equationPatterns 2) /\
  Compact.matchKnownEquationPattern "derivative of f(x) = x^2" = None /\
  (Advanced.matchKnownEquationPattern "sum of squares" = None <->
   Advanced.fx_exec Advanced.derivative_alts (JS.toLowerCase "sum of squares") = None /\
   Advanced.fx_exec Advanced.integral_alts (JS.toLowerCase "sum of squares") = None).
Proof.
  destruct pattern_matchers_earliest_trigger as (Hc & Ha & Hcn & Han).
  split; [|split; [|split]].
  - apply (Hc 0 _ "quadratic formula"); [reflexivity | left; reflexivity | reflexivity | lia].
  - destruct (nth_error Advanced.equationPatterns 2) as [P|] eqn:HP; [|discriminate].
    cbn [option_map].
    apply (Ha 2 P "euler's formula"); [exact HP | | reflexivity |].
    + vm_compute in HP. inversion HP. right; left; reflexivity.
    + intros j Q Hj HQ. destruct j as [|[|j]]; [| |lia];
        vm_compute in HQ; inversion HQ; vm_compute; reflexivity.
  - apply Hcn, no_trigger_of_forallb. vm_compute. reflexivity.
  - apply Han, no_trigger_of_forallb. vm_compute. reflexivity.
Defined.

(** C1 counterexample: "derivative of f(x) = x^2" contains no trigger
    phrase of the advanced table, yet the advanced matcher returns a
    result. *)
Lemma advanced_matcher_answers_without_trigger :
  Forall (fun Q => existsb (JS.includes (JS.toLowerCase "derivative of f(x) = x^2")) (keys Q)
                   = false) Advanced.equationPatterns /\
  Advanced.matchKnownEquationPattern "derivative of f(x) = x^2" <> None.
Proof.
  split; [apply no_trigger_of_forallb; vm_compute; reflexivity | vm_compute; discriminate].
Qed.


(** ** The differentiation and integration special cases *)

Lemma lower_char_line_terminator (c : ascii) :
  JS.is_line_terminator (JS.lower_char c) = JS.is_line_terminator c.
Proof. destruct c as [[] [] [] [] [] [] [] []]; reflexivity. Qed.

Lemma toLowerCase_no_line_terminator (s : string) :
  forallb (fun c => negb (JS.is_line_terminator c)) (list_ascii_of_string (JS.toLowerCase s)) =
  forallb (fun c => negb (JS.is_line_terminator c)) (list_ascii_of_string s).
Proof.
  induction s as [|c s IH]; simpl; [reflexivity|].
  rewrite lower_char_line_terminator, IH. reflexivity.
Qed.

Lemma toLowerCase_nonempty (s : string) : s <> EmptyString -> JS.toLowerCase s <> EmptyString.
Proof. destruct s; simpl; congruence. Qed.

Lemma lazy_tail_some (r : string) :
  r <> EmptyString ->
  forallb (fun c => negb (JS.is_line_terminator c)) (list_ascii_of_string r) = true ->
  exists e, Advanced.lazy_tail r = Some e.
Proof.
  induction r as [|c r IH]; intros Hne Hlt; [congruence|].
  simpl in Hlt. apply andb_prop in Hlt as [Hc Hlt].
  simpl. destruct (JS.is_line_terminator c); [discriminate|].
  destruct r as [|d r].
  - rewrite Bool.orb_true_r. eauto.
  - destruct (_ || _); [eauto|].
    destruct (IH ltac:(discriminate) Hlt) as [e He]. rewrite He. simpl. eauto.
Qed.

Lemma fx_at_head (a : string) (alts : list string) (e : string) :
  (exists x, Advanced.lazy_tail e = Some x) ->
  exists g, Advanced.fx_at (a :: alts) ((a ++ " f(x) = ") ++ e) = Some g.
Proof.
  intros [x Hx]. simpl. unfold Advanced.fx_after. rewrite strip_prefix_app, Hx. simpl. eauto.
Qed.

Lemma fx_exec_app (alts : list string) (p t g : string) :
  Advanced.fx_at alts t = Some g -> exists g', Advanced.fx_exec alts (p ++ t) = Some g'.
Proof.
  intros Ht. induction p as [|c p IH]; simpl.
  - destruct t; simpl; rewrite Ht; eauto.
  - destruct (Advanced.fx_at alts (String c (p ++ t))); [eauto|exact IH].
Qed.

Lemma generate_matched gen (params : Advanced.EquationGenerationParams) r :
  Advanced.matchKnownEquationPattern (Advanced.description params) = Some r ->
  Advanced.generateEquation gen params =
  inr (Advanced.formatEquationResult r (Advanced.format params) (Advanced.numbered params)).
Proof. intros H. unfold Advanced.generateEquation. rewrite H. reflexivity. Qed.

Lemma special_case_found (lit a : string) (alts : list string) (pre K expr : string) :
  JS.toLowerCase K = lit -> lit = a ++ " f(x) = " ->
  expr <> EmptyString ->
  forallb (fun c => negb (JS.is_line_terminator c)) (list_ascii_of_string expr) = true ->
  exists g, Advanced.fx_exec (a :: alts) (JS.toLowerCase (pre ++ K ++ expr)) = Some g.
Proof.
  intros HK Hlit Hne Hlt.
  rewrite !toLowerCase_app, HK, Hlit.
  destruct (fx_at_head a alts (JS.toLowerCase expr)) as [g Hg].
  { apply lazy_tail_some; [apply toLowerCase_nonempty; exact Hne|].
    rewrite toLowerCase_no_line_terminator. exact Hlt. }
  exact (fx_exec_app _ _ _ _ Hg).
Qed.

Lemma matcher_special (d : string) (r : EquationGenerationResult) :
  Advanced.matchKnownEquationPattern d = Some r ->
  Forall (fun Q => existsb (JS.includes (JS.toLowerCase d)) (keys Q) = false)
         Advanced.equationPatterns ->
  Advanced.special_cases (JS.toLowerCase d) = Some r.
Proof.
  unfold Advanced.matchKnownEquationPattern. intros H Hnone.
  rewrite (first_pattern_none _ _ Hnone) in H. exact H.
Qed.

Lemma matcher_some_of_special (d : string) (r : EquationGenerationResult) :
  Advanced.special_cases (JS.toLowerCase d) = Some r ->
  exists r', Advanced.matchKnownEquationPattern d = Some r'.
Proof.
  unfold Advanced.matchKnownEquationPattern. intros H.
  destruct (first_pattern _ _); eauto.
Qed.

(** C9: in the advanced implementation, every description of the form
    prefix + "derivative of f(x) = " + expr or prefix + "integral of f(x) = "
    + expr (expr non-empty, on one line, the phrase in any letter case) gets
    a non-null result from the matcher; when it contains no trigger phrase
    of the table, that result comes from the built-in differentiation or
    integration case; and [generateEquation] then returns the formatted
    result without calling the external generator. On
    "derivative of f(x) = x^2", which has no trigger phrase, the latex is
    "2x". *)
Theorem special_cases_bypass_fallback :
  (forall pre K expr,
     JS.toLowerCase K = "derivative of f(x) = " -> expr <> EmptyString ->
     forallb (fun c => negb (JS.is_line_terminator c)) (list_ascii_of_string expr) = true ->
     exists r, Advanced.matchKnownEquationPattern (pre ++ K ++ expr) = Some r /\
       (Forall (fun Q => existsb (JS.includes (JS.toLowerCase (pre ++ K ++ expr))) (keys Q)
                         = false) Advanced.equationPatterns ->
        exists g, r = Advanced.handleDerivative g) /\
       (forall gen fmt num ctx,
          Advanced.generateEquation gen (Advanced.mkParams (pre ++ K ++ expr) fmt num ctx) =
          inr (Advanced.formatEquationResult r fmt num))) /\
  (forall pre K expr,
     JS.toLowerCase K = "integral of f(x) = " -> expr <> EmptyString ->
     forallb (fun c => negb (JS.is_line_terminator c)) (list_ascii_of_string expr) = true ->
     exists r, Advanced.matchKnownEquationPattern (pre ++ K ++ expr) = Some r /\
       (Forall (fun Q => existsb (JS.includes (JS.toLowerCase (pre ++ K ++ expr))) (keys Q)
                         = false) Advanced.equationPatterns ->
        exists g, r = Advanced.handleDerivative g \/ r = Advanced.handleIntegration g) /\
       (forall gen fmt num ctx,
          Advanced.generateEquation gen (Advanced.mkParams (pre ++ K ++ expr) fmt num ctx) =
          inr (Advanced.formatEquationResult r fmt num))) /\
  (Forall (fun Q => existsb (JS.includes (JS.toLowerCase "derivative of f(x) = x^2")) (keys Q)
                    = false) Advanced.equationPatterns /\
   option_map latex (Advanced.matchKnownEquationPattern "derivative of f(x) = x^2") = Some "2x").
Proof.
  split; [|split].
  - intros pre K expr HK Hne Hlt.
    destruct (special_case_found _ "derivative of" ["differentiate"] pre K expr HK eq_refl Hne Hlt)
      as [g Hg].
    assert (Hs : Advanced.special_cases (JS.toLowerCase (pre ++ K ++ expr)) =
                 Some (Advanced.handleDerivative g)).
    { rewrite special_cases_eq. unfold Advanced.derivative_alts. rewrite Hg. reflexivity. }
    destruct (matcher_some_of_special _ _ Hs) as [r Hr].
    exists r. split; [exact Hr|]. split.
    + intros Hnone. pose proof (matcher_special _ _ Hr Hnone) as H.
      rewrite Hs in H. injection H as <-. eauto.
    + intros gen fmt num ctx. apply generate_matched. exact Hr.
  - intros pre K expr HK Hne Hlt.
    destruct (special_case_found _ "integral of" ["integrate"] pre K expr HK eq_refl Hne Hlt)
      as [g Hg].
    assert (Hs : exists g', Advanced.special_cases (JS.toLowerCase (pre ++ K ++ expr)) =
                 Some (Advanced.handleDerivative g') \/
                 Advanced.special_cases (JS.toLowerCase (pre ++ K ++ expr)) =
                 Some (Advanced.handleIntegration g')).
    { rewrite special_cases_eq.
      destruct (Advanced.fx_exec Advanced.derivative_alts _) as [g'|]; [eauto|].
      unfold Advanced.integral_alts. rewrite Hg. eauto. }
    destruct Hs as [g' Hs].
    assert (Hsome : exists r0, Advanced.special_cases (JS.toLowerCase (pre ++ K ++ expr)) = Some r0)
      by (destruct Hs; eauto).
    destruct Hsome as [r0 Hr0].
    destruct (matcher_some_of_special _ _ Hr0) as [r Hr].
    exists r. split; [exact Hr|]. split.
    + intros Hnone. pose proof (matcher_special _ _ Hr Hnone) as H.
      exists g'. destruct Hs as [Hs|Hs]; rewrite Hs in H; injection H as <-; auto.
    + intros gen fmt num ctx. apply generate_matched. exact Hr.
  - split; [apply no_trigger_of_forallb; vm_compute; reflexivity | vm_compute; reflexivity].
Qed.

Lemma special_cases_bypass_fallback_witness :
  exists r, Advanced.matchKnownEquationPattern ("Find the " ++ "Derivative of F(x) = " ++ "x^3")
            = Some r /\ latex r = "3x^{2}" /\
    Advanced.generateEquation (fun _ _ _ _ => inl "unused")
      (Advanced.mkParams ("Find the " ++ "Derivative of F(x) = " ++ "x^3") "inline" false "")
    = inr (Advanced.formatEquationResult r "inline" false).
Proof.
  destruct special_cases_bypass_fallback as (Hd & _ & _).
  destruct (Hd "Find the " "Derivative of F(x) = " "x^3")
    as (r & Hr & _ & Hgen); [reflexivity | discriminate | reflexivity |].
  exists r. split; [exact Hr|]. split; [|apply Hgen].
  vm_compute in Hr. injection Hr as <-. reflexivity.
Defined.

(* ================================================================== *)
(** * Further properties of the code *)

(** ** [isValidCommand] *)

Lemma includes_char (s : string) (c : ascii) :
  JS.includes s (String c EmptyString) = existsb (Ascii.eqb c) (list_ascii_of_string s).
Proof.
  induction s as [|d s IH]; [reflexivity|].
  cbn [JS.includes list_ascii_of_string existsb]. rewrite IH.
  unfold JS.startsWith. cbn [JS.strip_prefix]. destruct (Ascii.eqb c d); reflexivity.
Qed.

Lemma rev_string_app_acc (s acc : string) :
  JS.rev_string (JS.rev_string s acc) EmptyString = JS.rev_string acc s.
Proof.
  revert acc; induction s as [|c s IH]; intros acc; simpl; [reflexivity|].
  rewrite IH. reflexivity.
Qed.

Lemma rev_string_involutive (s : string) :
  JS.rev_string (JS.rev_string s EmptyString) EmptyString = s.
Proof. rewrite rev_string_app_acc. reflexivity. Qed.




Lemma split_head_app (c : ascii) (a b : string) :
  existsb (Ascii.eqb c) (list_ascii_of_string a) = false ->
  JS.split_head c (a ++ String c b) = a /\ JS.split_head c a = a.
Proof.
  induction a as [|d a IH]; intros H; simpl in *.
  - rewrite Ascii.eqb_refl. split; reflexivity.
  - apply Bool.orb_false_iff in H as [Hd H]. rewrite Ascii.eqb_sym, Hd.
    destruct (IH H) as [-> ->]. split; reflexivity.
Qed.

Lemma list_ascii_app (a b : string) :
  list_ascii_of_string (a ++ b) = (list_ascii_of_string a ++ list_ascii_of_string b)%list.
Proof. induction a as [|c a IH]; simpl; [reflexivity|]. rewrite IH. reflexivity. Qed.


(** Outside backslashes, [isValidCommand] looks only at the name before
    the first ['{']: an argument does not change the verdict, and every
    name of the registry is accepted, with or without an argument. *)
Theorem isValidCommand_ignores_argument (name args : string) :
  existsb (Ascii.eqb Symbols.char_backslash) (list_ascii_of_string name) = false ->
  existsb (Ascii.eqb Symbols.char_backslash) (list_ascii_of_string args) = false ->
  existsb (Ascii.eqb Symbols.char_lbrace) (list_ascii_of_string name) = false ->
  Symbols.isValidCommand (name ++ "{" ++ args) = Symbols.isValidCommand name /\
  (In name Symbols.VALID_MATH_COMMANDS -> Symbols.isValidCommand name = true).
Proof.
  intros Hn Ha Hl.
  destruct (split_head_app Symbols.char_lbrace name args Hl) as [H1 H2].
  split.
  - unfold Symbols.isValidCommand. rewrite !includes_char.
    assert (E : existsb (Ascii.eqb Symbols.char_backslash)
                  (list_ascii_of_string (name ++ "{" ++ args)) = false).
    { rewrite list_ascii_app, existsb_app, Hn. simpl. exact Ha. }
    rewrite E, Hn.
    unfold Symbols.isValidBase. change ("{" ++ args) with (String Symbols.char_lbrace args).
    rewrite H1, H2. reflexivity.
  - intros Hin.
    assert (Hall : forallb Symbols.isValidCommand Symbols.VALID_MATH_COMMANDS = true)
      by (vm_compute; reflexivity).
    exact (proj1 (forallb_forall _ _) Hall name Hin).
Qed.

Lemma isValidCommand_ignores_argument_witness :
  Symbols.isValidCommand ("frac" ++ "{" ++ "a}{b") = Symbols.isValidCommand "frac" /\
  (In "frac" Symbols.VALID_MATH_COMMANDS -> Symbols.isValidCommand "frac" = true).
Proof. apply isValidCommand_ignores_argument; reflexivity. Defined.

(** ** Control sequences and the unknown-command issues *)

Lemma string_app_inv_l (p x y : string) : p ++ x = p ++ y -> x = y.
Proof. induction p as [|c p IH]; simpl; [auto|]. intros H. injection H. exact IH. Qed.

Lemma run_letters_letters (s r t : string) :
  Scan.run_letters s = (r, t) ->
  forallb Scan.is_ascii_letter (list_ascii_of_string r) = true.
Proof.
  revert r t; induction s as [|c s IH]; intros r t H; simpl in H.
  - injection H as <- <-. reflexivity.
  - destruct (Scan.is_ascii_letter c) eqn:Hc.
    + destruct (Scan.run_letters s) as [r' t'] eqn:Hs. injection H as <- <-.
      simpl. rewrite Hc. exact (IH _ _ eq_refl).
    + injection H as <- <-. reflexivity.
Qed.

Lemma cmd_at_shape (s m rest : string) :
  Scan.cmd_at s = Some (m, rest) ->
  exists name, m = "\" ++ name /\ name <> EmptyString /\
               forallb Scan.is_ascii_letter (list_ascii_of_string name) = true.
Proof.
  unfold Scan.cmd_at. destruct s as [|c t]; [discriminate|].
  destruct (Ascii.eqb c Symbols.char_backslash) eqn:Hc; [|discriminate].
  apply Ascii.eqb_eq in Hc. subst c.
  destruct (Scan.run_letters t) as [[|x name] r] eqn:Hr; [discriminate|].
  intros H. injection H as <- _. exists (String x name).
  split; [reflexivity|]. split; [discriminate|]. exact (run_letters_letters _ _ _ Hr).
Qed.

Lemma commands_shape (s q : string) :
  In q (Scan.commands s) ->
  exists name, q = "\" ++ name /\ name <> EmptyString /\
               forallb Scan.is_ascii_letter (list_ascii_of_string name) = true.
Proof.
  unfold Scan.commands. generalize (S (String.length s)) as fuel.
  intros fuel; revert s; induction fuel as [|fuel IH]; intros s H; simpl in H; [contradiction|].
  destruct (Scan.cmd_at s) as [[m rest]|] eqn:Hc.
  - destruct H as [<-|H]; [exact (cmd_at_shape _ _ _ Hc)|exact (IH _ H)].
  - destruct s as [|c s']; [contradiction|exact (IH _ H)].
Qed.

Lemma letter_not_special (c : ascii) :
  Scan.is_ascii_letter c = true ->
  JS.is_space c = false /\ Ascii.eqb Symbols.char_backslash c = false /\
  Ascii.eqb Symbols.char_lbrace c = false.
Proof. destruct c as [[] [] [] [] [] [] [] []]; intros H; try discriminate; auto. Qed.

Lemma forallb_no_char (c : ascii) (l : list ascii) :
  (forall x, Scan.is_ascii_letter x = true -> Ascii.eqb c x = false) ->
  forallb Scan.is_ascii_letter l = true -> existsb (Ascii.eqb c) l = false.
Proof.
  intros Hx; induction l as [|x l IH]; simpl; [reflexivity|].
  intros H; apply andb_prop in H as [H1 H2]. rewrite (Hx x H1). exact (IH H2).
Qed.

Lemma rev_string_no_space (s acc : string) :
  forallb (fun c => negb (JS.is_space c)) (list_ascii_of_string s) = true ->
  forallb (fun c => negb (JS.is_space c)) (list_ascii_of_string acc) = true ->
  forallb (fun c => negb (JS.is_space c)) (list_ascii_of_string (JS.rev_string s acc)) = true.
Proof.
  revert acc; induction s as [|c s IH]; intros acc Hs Ha; simpl in *; [exact Ha|].
  apply andb_prop in Hs as [Hc Hs]. apply IH; [exact Hs|]. simpl. rewrite Hc. exact Ha.
Qed.

Lemma trim_start_no_space (s : string) :
  forallb (fun c => negb (JS.is_space c)) (list_ascii_of_string s) = true ->
  JS.trim_start s = s.
Proof.
  destruct s as [|c s]; simpl; [reflexivity|].
  intros H. apply andb_prop in H as [Hc _]. destruct (JS.is_space c); [discriminate|reflexivity].
Qed.

Lemma trim_no_space (s : string) :
  forallb (fun c => negb (JS.is_space c)) (list_ascii_of_string s) = true -> JS.trim s = s.
Proof.
  intros H. unfold JS.trim. rewrite (trim_start_no_space s H).
  rewrite trim_start_no_space by (apply rev_string_no_space; [exact H|reflexivity]).
  apply rev_string_involutive.
Qed.

Lemma isValidCommand_letters (name : string) :
  forallb Scan.is_ascii_letter (list_ascii_of_string name) = true ->
  Symbols.isValidCommand name = Symbols.set_has Symbols.VALID_MATH_COMMANDS name.
Proof.
  intros H.
  unfold Symbols.isValidCommand. rewrite includes_char.
  rewrite (forallb_no_char _ _ (fun x Hx => proj1 (proj2 (letter_not_special x Hx))) H).
  unfold Symbols.isValidBase.
  assert (Hl : existsb (Ascii.eqb Symbols.char_lbrace) (list_ascii_of_string name) = false)
    by exact (forallb_no_char _ _ (fun x Hx => proj2 (proj2 (letter_not_special x Hx))) H).
  rewrite (proj2 (split_head_app _ name EmptyString Hl)).
  rewrite trim_no_space.
  - destruct (String.eqb_spec name "newcommand") as [->|_]; [reflexivity|].
    destruct (String.eqb_spec name "renewcommand") as [->|_]; reflexivity.
  - apply forallb_forall. intros x Hx.
    rewrite (proj1 (letter_not_special x (proj1 (forallb_forall _ _) H x Hx))). reflexivity.
Qed.

Lemma commands_valid (s q : string) :
  In q (Scan.commands s) ->
  Symbols.isValidCommand (Scan.substring1 q) =
  Symbols.set_has Symbols.VALID_MATH_COMMANDS (Scan.substring1 q).
Proof.
  intros H. destruct (commands_shape _ _ H) as (name & -> & _ & Hl).
  exact (isValidCommand_letters name Hl).
Qed.

Ltac not_in_issue H :=
  repeat match type of H with
  | In _ (if ?b then _ else _) => destruct b
  | In _ [] => contradiction
  | In _ [_] => destruct H as [H|[]]; discriminate
  end.

(** Both validators report an unknown control sequence [\name] (a
    backslash and a maximal run of ASCII letters found by the scan) exactly
    when [name] is not in the registry: for such names [isValidCommand]
    is registry membership. *)
Theorem validators_unknown_commands (s q : string) :
  (In (UnknownCommand ("Potentially undefined control sequence: " ++ q))
      (Advanced.validateEquation s) <->
   In q (Scan.commands s) /\
   Symbols.set_has Symbols.VALID_MATH_COMMANDS (Scan.substring1 q) = false) /\
  (In (UnknownCommand ("Unknown command \" ++ q)) (Compact.validateEquation s) <->
   In ("\" ++ q) (Scan.commands s) /\
   Symbols.set_has Symbols.VALID_MATH_COMMANDS q = false).
Proof.
  split.
  - unfold Advanced.validateEquation; cbv zeta. rewrite !in_app_iff. split.
    + intros [H|[H|[H|H]]].
      * not_in_issue H.
      * not_in_issue H.
      * destruct (negb _); [not_in_issue H|].
        apply in_flat_map in H as (i & _ & H). not_in_issue H.
      * apply in_flat_map in H as (c & Hc & H).
        destruct (Symbols.isValidCommand (Scan.substring1 c)) eqn:Hv; simpl in H;
          [contradiction|].
        destruct H as [H|[]]. injection H as H. try apply string_app_inv_l in H. subst c.
        split; [exact Hc|]. rewrite <- (commands_valid _ _ Hc). exact Hv.
    + intros [Hq Hv]. right; right; right. apply in_flat_map. exists q.
      split; [exact Hq|]. rewrite (commands_valid _ _ Hq), Hv. left; reflexivity.
  - unfold Compact.validateEquation; cbv zeta. rewrite !in_app_iff. split.
    + intros [H|[H|[H|H]]]; try (not_in_issue H; fail).
      apply in_flat_map in H as (c & Hc & H).
      destruct (Symbols.isValidCommand (Scan.substring1 c)) eqn:Hv; simpl in H;
        [contradiction|].
      destruct H as [H|[]]. injection H as H. try apply string_app_inv_l in H. subst q.
      destruct (commands_shape _ _ Hc) as (name & -> & _ & _).
      split; [exact Hc|]. rewrite <- (commands_valid _ _ Hc). exact Hv.
    + intros [Hq Hv]. right; right; right. apply in_flat_map. exists ("\" ++ q).
      split; [exact Hq|]. rewrite (commands_valid _ _ Hq).
      change (Scan.substring1 ("\" ++ q)) with q. rewrite Hv.
      left; reflexivity.
Qed.

(** ** The edit distance and the first suggestion *)

Lemma edit_rec_zero (u v : list ascii) : Symbols.edit_rec u v = 0 -> u = v.
Proof.
  revert v; induction u as [|x u IHu]; intros v.
  - destruct v; [reflexivity|discriminate].
  - destruct v as [|y v]; [discriminate|]. rewrite edit_rec_cons_cons.
    destruct (Ascii.eqb_spec x y) as [->|_]; [|discriminate].
    intros H. rewrite (IHu v H). reflexivity.
Qed.

Lemma edit_rec_bounds (u v : list ascii) :
  length u - length v <= Symbols.edit_rec u v /\ length v - length u <= Symbols.edit_rec u v /\
  Symbols.edit_rec u v <= Nat.max (length u) (length v).
Proof.
  revert v; induction u as [|x u IHu]; intros v.
  - simpl. lia.
  - induction v as [|y v IHv].
    + simpl. lia.
    + rewrite edit_rec_cons_cons.
      pose proof (IHu v) as H1. pose proof (IHu (y :: v)) as H2.
      simpl length in *. destruct (Ascii.eqb x y); lia.
Qed.

Lemma length_list_ascii (s : string) : length (list_ascii_of_string s) = String.length s.
Proof. induction s as [|c s IH]; simpl; [reflexivity|]. rewrite IH. reflexivity. Qed.

(** [dist] is zero exactly on equal strings, and lies between the
    difference of the lengths and the larger length. *)
Theorem dist_zero_iff_equal_and_bounds :
  (forall a b : string, Symbols.dist a b = 0 <-> a = b) /\
  (forall a b : string,
     String.length a - String.length b <= Symbols.dist a b /\
     String.length b - String.length a <= Symbols.dist a b /\
     Symbols.dist a b <= Nat.max (String.length a) (String.length b)).
Proof.
  split.
  - intros a b. rewrite dist_edit_rec. split.
    + destruct (String.eqb_spec a b) as [->|_]; [reflexivity|].
      intros H. apply edit_rec_zero in H.
      apply (f_equal (@rev ascii)) in H. rewrite !rev_involutive in H.
      rewrite <- (string_of_list_ascii_of_string a), <- (string_of_list_ascii_of_string b), H.
      reflexivity.
    + intros ->. rewrite String.eqb_refl. reflexivity.
  - intros a b. rewrite dist_edit_rec.
    destruct (String.eqb_spec a b) as [->|_]; [lia|].
    pose proof (edit_rec_bounds (rev (list_ascii_of_string b)) (rev (list_ascii_of_string a)))
      as H.
    rewrite !length_rev, !length_list_ascii in H. lia.
Qed.

Lemma sorted_head_min (h : string * nat) (t : list (string * nat)) (p : string * nat) :
  Sorted Symbols.le_d (h :: t) -> In p (h :: t) -> snd h <= snd p.
Proof.
  intros Hs Hp. apply Sorted_StronglySorted in Hs.
  - apply StronglySorted_inv in Hs as [_ Hall].
    destruct Hp as [<-|Hp]; [lia|]. exact (proj1 (Forall_forall _ _) Hall p Hp).
  - unfold Symbols.le_d. intros x y z; lia.
Qed.

(** A name of the registry is its own first suggestion: it is the only
    name at distance 0 and the ranking puts the smallest distance first. *)
Theorem getSuggestions_registry_name_first (registry : list string) (bad : string) :
  In bad registry -> hd_error (Symbols.getSuggestions_in registry bad) = Some bad.
Proof.
  intros Hin.
  set (P := map (fun cmd => (cmd, Symbols.dist bad cmd)) registry).
  assert (Hp : In (bad, 0) (Symbols.sort_by_d P)).
  { apply (Permutation_in _ (Permutation_sym (sort_by_d_perm P))).
    unfold P. apply in_map_iff. exists bad. split; [|exact Hin].
    rewrite (proj2 (proj1 dist_zero_iff_equal_and_bounds bad bad) eq_refl). reflexivity. }
  unfold Symbols.getSuggestions_in. fold P.
  destruct (Symbols.sort_by_d P) as [|h t] eqn:Hl; [contradiction|].
  assert (Hh : snd h <= 0)
    by (apply (sorted_head_min h t (bad, 0)); [rewrite <- Hl; apply sort_by_d_sorted|exact Hp]).
  assert (Ht : Symbols.tagged bad h).
  { apply (proj1 (Forall_forall _ _) (tagged_pairs bad registry)).
    apply (Permutation_in _ (sort_by_d_perm P)). rewrite Hl. left; reflexivity. }
  unfold Symbols.tagged in Ht. simpl.
  assert (H0 : Symbols.dist bad (fst h) = 0) by lia.
  apply (proj1 dist_zero_iff_equal_and_bounds) in H0. rewrite H0. reflexivity.
Qed.

Lemma getSuggestions_registry_name_first_witness :
  hd_error (Symbols.getSuggestions "alpha") = Some "alpha".
Proof.
  apply getSuggestions_registry_name_first. vm_compute. left; reflexivity.
Defined.

(** ** [categorizeCommand] *)

Lemma endsWith_toLowerCase (s p : string) :
  JS.endsWith s p = true -> JS.endsWith (JS.toLowerCase s) (JS.toLowerCase p) = true.
Proof.
  induction s as [|c s IH]; intros H; cbn [JS.endsWith JS.toLowerCase] in *.
  - rewrite Bool.orb_false_r in H. apply String.eqb_eq in H. rewrite <- H. reflexivity.
  - apply Bool.orb_true_iff in H as [H|H].
    + apply String.eqb_eq in H. rewrite <- H. cbn [JS.toLowerCase].
      rewrite String.eqb_refl. reflexivity.
    + rewrite (IH H). apply Bool.orb_true_r.
Qed.

Lemma test_ci_arrow (names : list string) (base : string) :
  forallb (fun w => negb (JS.endsWith w "arrow")) names = true ->
  JS.endsWith base "arrow" = true -> Symbols.test_ci names base = false.
Proof.
  intros Hn Hb. unfold Symbols.test_ci.
  destruct (existsb _ names) eqn:He; [|reflexivity].
  apply existsb_exists in He as (w & Hw & Heq). apply String.eqb_eq in Heq.
  apply endsWith_toLowerCase in Hb. rewrite Heq in Hb.
  change (JS.toLowerCase "arrow") with "arrow" in Hb.
  pose proof (proj1 (forallb_forall _ _) Hn w Hw) as Hw'. cbv beta in Hw'.
  rewrite Hb in Hw'. discriminate.
Qed.

(** [categorizeCommand] classifies the name before the first ['{'] (so
    an argument never changes the category), and every command whose
    base name ends in "arrow" is an "Arrow": no name of the four
    categories tested before ends in "arrow", whatever the letter case. *)
Theorem categorizeCommand_base_arrow :
  (forall name args : string,
     existsb (Ascii.eqb Symbols.char_lbrace) (list_ascii_of_string name) = false ->
     Symbols.categorizeCommand (name ++ "{" ++ args) = Symbols.categorizeCommand name) /\
  (forall cmd : string,
     JS.endsWith (JS.trim (JS.split_head Symbols.char_lbrace cmd)) "arrow" = true ->
     Symbols.categorizeCommand cmd = "Arrow").
Proof.
  split.
  - intros name args Hl. unfold Symbols.categorizeCommand.
    change ("{" ++ args) with (String Symbols.char_lbrace args).
    destruct (split_head_app _ name args Hl) as [-> ->]. reflexivity.
  - intros cmd Hb. unfold Symbols.categorizeCommand.
    rewrite (test_ci_arrow Symbols.greek_names _ ltac:(vm_compute; reflexivity) Hb),
      (test_ci_arrow Symbols.big_operator_names _ ltac:(vm_compute; reflexivity) Hb),
      (test_ci_arrow Symbols.formatting_names _ ltac:(vm_compute; reflexivity) Hb),
      (test_ci_arrow Symbols.function_names _ ltac:(vm_compute; reflexivity) Hb), Hb.
    reflexivity.
Qed.

Lemma categorizeCommand_base_arrow_witness :
  Symbols.categorizeCommand ("vec" ++ "{" ++ "x}") = Symbols.categorizeCommand "vec" /\
  Symbols.categorizeCommand " Longleftarrow {}" = "Arrow".
Proof.
  destruct categorizeCommand_base_arrow as [H1 H2].
  split; [apply H1; reflexivity | apply H2; vm_compute; reflexivity].
Defined.

(** ** Decimal numerals and the power rule of the handlers *)

Lemma digits_of_uint_acc (u : Decimal.uint) : forall (acc : positive) (z : Z), z = Zpos acc ->
  Advanced.digits_go (NilEmpty.string_of_uint u) z = Some (Zpos (Pos.of_uint_acc u acc)).
Proof.
  induction u as [|u IH|u IH|u IH|u IH|u IH|u IH|u IH|u IH|u IH|u IH]; intros acc z ->;
    [reflexivity|..];
  cbn [NilEmpty.string_of_uint Pos.of_uint_acc Advanced.digits_go];
  match goal with |- context [Advanced.digit_value ?c] =>
    let v := eval vm_compute in (Advanced.digit_value c) in
    change (Advanced.digit_value c) with v end;
  cbv beta iota; apply IH; rewrite ?Pos2Z.inj_add, ?Pos2Z.inj_mul; lia.
Qed.

Lemma digits_of_uint (u : Decimal.uint) :
  Advanced.digits_go (NilEmpty.string_of_uint u) 0%Z = Some (Z.of_uint u).
Proof.
  induction u as [|u IH|u IH|u IH|u IH|u IH|u IH|u IH|u IH|u IH|u IH];
    [reflexivity|exact IH|..];
  cbn [NilEmpty.string_of_uint Advanced.digits_go];
  match goal with |- context [Advanced.digit_value ?c] =>
    let v := eval vm_compute in (Advanced.digit_value c) in
    change (Advanced.digit_value c) with v end;
  cbv beta iota; apply digits_of_uint_acc; reflexivity.
Qed.

Lemma digits_show_Z (n : Z) : (0 <= n)%Z -> Advanced.digits_go (JS.show_Z n) 0%Z = Some n.
Proof.
  intros Hn. destruct n as [|p|p]; [reflexivity| |lia].
  unfold JS.show_Z. change (Z.to_int (Zpos p)) with (Decimal.Pos (Pos.to_uint p)).
  change (NilEmpty.string_of_int (Decimal.Pos (Pos.to_uint p)))
    with (NilEmpty.string_of_uint (Pos.to_uint p)).
  rewrite digits_of_uint. f_equal. exact (DecimalZ.of_to (Zpos p)).
Qed.

Lemma digit_char (c : ascii) (d : Z) :
  Advanced.digit_value c = Some d ->
  JS.is_space c = false /\ JS.is_line_terminator c = false.
Proof. destruct c as [[] [] [] [] [] [] [] []]; intros H; try discriminate; auto. Qed.

Lemma digits_go_chars (s : string) (acc v : Z) :
  Advanced.digits_go s acc = Some v ->
  forallb (fun c => negb (JS.is_space c)) (list_ascii_of_string s) = true /\
  forallb (fun c => negb (JS.is_line_terminator c)) (list_ascii_of_string s) = true.
Proof.
  revert acc; induction s as [|c s IH]; intros acc H; [split; reflexivity|].
  cbn [Advanced.digits_go] in H.
  destruct (Advanced.digit_value c) as [d|] eqn:Hd; [|discriminate].
  destruct (digit_char _ _ Hd) as [H1 H2]. destruct (IH _ H) as [H3 H4].
  cbn [list_ascii_of_string forallb]. rewrite H1, H2, H3, H4. split; reflexivity.
Qed.

Lemma run_no_line_terminator_id (s : string) :
  forallb (fun c => negb (JS.is_line_terminator c)) (list_ascii_of_string s) = true ->
  Advanced.run_no_line_terminator s = s.
Proof.
  induction s as [|c s IH]; intros H; [reflexivity|].
  cbn [list_ascii_of_string forallb] in H. apply andb_prop in H as [Hc H].
  cbn [Advanced.run_no_line_terminator].
  destruct (JS.is_line_terminator c); [discriminate|]. rewrite (IH H). reflexivity.
Qed.

Lemma fx_expression_capture (e : string) :
  e <> EmptyString ->
  forallb (fun c => negb (JS.is_line_terminator c)) (list_ascii_of_string e) = true ->
  Advanced.fx_expression ("f(x) = " ++ e) = Some e.
Proof.
  intros Hne Hlt.
  assert (Hs : JS.strip_prefix "f(x) = " ("f(x) = " ++ e) = Some e) by apply strip_prefix_app.
  change (Advanced.fx_expression ("f(x) = " ++ e)) with
    (match
       match JS.strip_prefix "f(x) = " ("f(x) = " ++ e) with
       | Some r => match Advanced.run_no_line_terminator r with
                   | EmptyString => None
                   | g => Some g
                   end
       | None => None
       end
     with
     | Some g => Some g
     | None => Advanced.fx_expression ("(x) = " ++ e)
     end).
  rewrite Hs, (run_no_line_terminator_id _ Hlt). destruct e; [congruence|reflexivity].
Qed.

Lemma power_of_show_Z (n : Z) :
  (0 <= n)%Z -> Advanced.power_of ("x^" ++ JS.show_Z n) = Some n.
Proof.
  intros Hn. unfold Advanced.power_of. rewrite strip_prefix_app.
  pose proof (digits_show_Z n Hn) as H.
  destruct (JS.show_Z n) as [|c s] eqn:E; [|exact H].
  cbn in H. injection H as <-. vm_compute in E. discriminate.
Qed.

Lemma power_expression (n : Z) :
  (0 <= n)%Z ->
  Advanced.fx_expression ("f(x) = " ++ ("x^" ++ JS.show_Z n)) = Some ("x^" ++ JS.show_Z n) /\
  JS.trim ("x^" ++ JS.show_Z n) = "x^" ++ JS.show_Z n.
Proof.
  intros Hn. destruct (digits_go_chars _ _ _ (digits_show_Z n Hn)) as [Hs Hl].
  split.
  - apply fx_expression_capture; [discriminate|]. exact Hl.
  - apply trim_no_space. exact Hs.
Qed.

(** The power rule of both handlers on [f(x) = x^n], [n] printed in
    decimal (exact below 2^53, where [parseInt] and printing are): the
    derivative is [n x^{n-1}] for [n >= 3], "2x" and "1" for [n = 2] and
    [n = 1], and "0x^{-1}" for [n = 0]; the integral is
    [\frac{x^{n+1}}{n+1} + C] for every such [n]. Each comes with the
    power-rule explanation. *)
Theorem handlers_power_rule (n : Z) :
  (0 <= n < 2 ^ 53)%Z ->
  let d := Advanced.handleDerivative ("f(x) = x^" ++ JS.show_Z n) in
  let i := Advanced.handleIntegration ("f(x) = x^" ++ JS.show_Z n) in
  ((3 <= n)%Z -> latex d = JS.show_Z n ++ "x^{" ++ JS.show_Z (n - 1) ++ "}") /\
  (n = 2%Z -> latex d = "2x") /\ (n = 1%Z -> latex d = "1") /\
  (n = 0%Z -> latex d = "0x^{-1}") /\
  explanation d = Some "Using the power rule: d/dx(x^n) = n·x^(n-1)" /\
  latex i = "\frac{x^{" ++ JS.show_Z (n + 1) ++ "}}{" ++ JS.show_Z (n + 1) ++ "} + C" /\
  explanation i = Some "Using the power rule: ∫x^n dx = x^(n+1)/(n+1) + C".
Proof.
  intros Hn d i.
  destruct (power_expression n ltac:(lia)) as [He Ht].
  assert (Hp := power_of_show_Z n ltac:(lia)).
  change ("f(x) = x^" ++ JS.show_Z n) with ("f(x) = " ++ ("x^" ++ JS.show_Z n)) in d, i.
  subst d i. unfold Advanced.handleDerivative, Advanced.handleIntegration.
  rewrite He; cbv zeta; rewrite Ht, Hp.
  refine (conj _ (conj _ (conj _ (conj _ (conj _ (conj _ _)))))).
  - intros H3. destruct (Z.eqb_spec n 1), (Z.eqb_spec n 2); try lia. reflexivity.
  - intros ->. reflexivity.
  - intros ->. reflexivity.
  - intros ->. reflexivity.
  - destruct (Z.eqb n 1), (Z.eqb n 2); reflexivity.
  - reflexivity.
  - reflexivity.
Qed.

Lemma handlers_power_rule_witness :
  latex (Advanced.handleDerivative ("f(x) = x^" ++ JS.show_Z 5)) =
  JS.show_Z 5 ++ "x^{" ++ JS.show_Z (5 - 1) ++ "}".
Proof. destruct (handlers_power_rule 5 ltac:(lia)) as [H _]. exact (H ltac:(lia)). Defined.

Lemma lazy_tail_shape (r e : string) :
  Advanced.lazy_tail r = Some e ->
  e <> EmptyString /\
  forallb (fun c => negb (JS.is_line_terminator c)) (list_ascii_of_string e) = true.
Proof.
  revert e; induction r as [|c r IH]; intros e H; [discriminate|].
  cbn [Advanced.lazy_tail] in H.
  destruct (JS.is_line_terminator c) eqn:Hc; [discriminate|].
  destruct (_ || _).
  - injection H as <-. split; [discriminate|]. simpl. rewrite Hc. reflexivity.
  - destruct (Advanced.lazy_tail r) as [e'|] eqn:He; [|discriminate].
    injection H as <-. destruct (IH e' eq_refl) as [_ H2].
    split; [discriminate|]. simpl. rewrite Hc, H2. reflexivity.
Qed.

Lemma fx_at_shape (alts : list string) (t g : string) :
  Advanced.fx_at alts t = Some g ->
  exists e, g = "f(x) = " ++ e /\ e <> EmptyString /\
            forallb (fun c => negb (JS.is_line_terminator c)) (list_ascii_of_string e) = true.
Proof.
  induction alts as [|a alts IH]; intros H; [discriminate|].
  cbn [Advanced.fx_at] in H. destruct (Advanced.fx_after a t) as [g'|] eqn:Ha; [|exact (IH H)].
  injection H as <-. unfold Advanced.fx_after in Ha.
  destruct (JS.strip_prefix _ t); [|discriminate].
  destruct (Advanced.lazy_tail s) as [e|] eqn:He; [|discriminate].
  injection Ha as <-. exists e. split; [reflexivity|]. exact (lazy_tail_shape _ _ He).
Qed.

Lemma fx_exec_shape (alts : list string) (s g : string) :
  Advanced.fx_exec alts s = Some g ->
  exists e, g = "f(x) = " ++ e /\ e <> EmptyString /\
            forallb (fun c => negb (JS.is_line_terminator c)) (list_ascii_of_string e) = true.
Proof.
  induction s as [|c s IH]; intros H; cbn [Advanced.fx_exec] in H;
    destruct (Advanced.fx_at alts _) as [g'|] eqn:Ha.
  - injection H as <-. exact (fx_at_shape _ _ _ Ha).
  - discriminate.
  - injection H as <-. exact (fx_at_shape _ _ _ Ha).
  - exact (IH H).
Qed.

Lemma handlers_shape (e : string) :
  e <> EmptyString ->
  forallb (fun c => negb (JS.is_line_terminator c)) (list_ascii_of_string e) = true ->
  let d := Advanced.handleDerivative ("f(x) = " ++ e) in
  let i := Advanced.handleIntegration ("f(x) = " ++ e) in
  (preview d = "Preview: " ++ latex d /\ explanation d <> None) /\
  (preview i = "Preview: " ++ latex i /\ explanation i <> None).
Proof.
  intros Hne Hlt d i. subst d i.
  unfold Advanced.handleDerivative, Advanced.handleIntegration.
  rewrite (fx_expression_capture e Hne Hlt). cbv zeta.
  split; destruct (Advanced.power_of (JS.trim e));
    repeat match goal with |- context [if ?b then _ else _] => destruct b end;
    split; (reflexivity || discriminate).
Qed.

(** Every non-null result of either matcher has the preview the matcher
    builds from its latex and an explanation: the advanced special cases
    always receive a captured [f(x) = ...] text with a non-empty
    expression, so the "Could not parse" results of [handleDerivative]
    and [handleIntegration] are never returned by the matcher. *)
Theorem matcher_results_preview_explanation :
  (forall d r, Advanced.matchKnownEquationPattern d = Some r ->
     preview r = "Preview: " ++ latex r /\ explanation r <> None) /\
  (forall d r, Compact.matchKnownEquationPattern d = Some r ->
     preview r = "Preview:" ++ JS.nl ++ latex r /\ explanation r <> None).
Proof.
  split.
  - intros d r. unfold Advanced.matchKnownEquationPattern. cbv zeta.
    destruct (first_pattern _ _) as [p|].
    + intros H. injection H as <-. split; [reflexivity|discriminate].
    + rewrite special_cases_eq.
      destruct (Advanced.fx_exec Advanced.derivative_alts _) as [g|] eqn:Hd.
      * intros H. injection H as <-. destruct (fx_exec_shape _ _ _ Hd) as (e & -> & Hne & Hlt).
        exact (proj1 (handlers_shape e Hne Hlt)).
      * destruct (Advanced.fx_exec Advanced.integral_alts _) as [g|] eqn:Hi; [|discriminate].
        intros H. injection H as <-. destruct (fx_exec_shape _ _ _ Hi) as (e & -> & Hne & Hlt).
        exact (proj2 (handlers_shape e Hne Hlt)).
  - intros d r. unfold Compact.matchKnownEquationPattern. cbv zeta.
    destruct (first_pattern _ _) as [p|]; [|discriminate].
    intros H. injection H as <-. split; [reflexivity|discriminate].
Qed.

Lemma matcher_results_preview_explanation_witness :
  preview (Advanced.handleIntegration "f(x) = cos(x)") =
  "Preview: " ++ latex (Advanced.handleIntegration "f(x) = cos(x)") /\
  explanation (Advanced.handleIntegration "f(x) = cos(x)") <> None.
Proof.
  apply (proj1 matcher_results_preview_explanation "Integrate f(x) = cos(x)").
  vm_compute. reflexivity.
Defined.

(** ** Text without control sequences *)

Lemma tags_no_backslash (kw s : string) (fuel : nat) :
  existsb (Ascii.eqb Symbols.char_backslash) (list_ascii_of_string s) = false ->
  Scan.tags_go fuel kw s = [].
Proof.
  revert s; induction fuel as [|fuel IH]; intros s H; [reflexivity|].
  destruct s as [|c s]; [reflexivity|].
  cbn [list_ascii_of_string existsb] in H. apply Bool.orb_false_iff in H as [Hc H].
  cbn [Scan.tags_go]. unfold Scan.tag_at.
  replace (JS.strip_prefix ("\" ++ kw ++ "{") (String c s)) with (@None string)
    by (change Symbols.char_backslash with "\"%char in Hc;
        cbn [String.append JS.strip_prefix]; rewrite Hc; reflexivity).
  exact (IH s H).
Qed.

Lemma commands_no_backslash (s : string) (fuel : nat) :
  existsb (Ascii.eqb Symbols.char_backslash) (list_ascii_of_string s) = false ->
  Scan.cmds_go fuel s = [].
Proof.
  revert s; induction fuel as [|fuel IH]; intros s H; [reflexivity|].
  destruct s as [|c s]; [reflexivity|].
  cbn [list_ascii_of_string existsb] in H. apply Bool.orb_false_iff in H as [Hc H].
  cbn [Scan.cmds_go Scan.cmd_at]. rewrite Ascii.eqb_sym, Hc. exact (IH s H).
Qed.

(** On a text without a backslash neither validator reports an
    environment or an unknown command: every issue is about braces or
    dollar signs. *)
Theorem validators_no_backslash (s : string) :
  existsb (Ascii.eqb Symbols.char_backslash) (list_ascii_of_string s) = false ->
  Forall (fun i => is_braces i || is_delims i = true) (Advanced.validateEquation s) /\
  Forall (fun i => is_braces i || is_delims i = true) (Compact.validateEquation s).
Proof.
  intros H.
  assert (Ht : forall kw, Scan.tags kw s = []) by (intros; apply tags_no_backslash, H).
  assert (Hc : Scan.commands s = []) by (apply commands_no_backslash, H).
  split.
  - unfold Advanced.validateEquation; cbv zeta. rewrite !Ht, Hc. cbn [map length seq flat_map].
    rewrite !app_nil_r.
    apply Forall_app; split; destruct (Nat.eqb _ _); repeat constructor.
  - unfold Compact.validateEquation; cbv zeta. rewrite !Ht, Hc. cbn [length flat_map].
    rewrite !app_nil_r.
    apply Forall_app; split; destruct (Nat.eqb _ _); repeat constructor.
Qed.

Lemma validators_no_backslash_witness :
  Forall (fun i => is_braces i || is_delims i = true) (Advanced.validateEquation "{x}$y") /\
  Forall (fun i => is_braces i || is_delims i = true) (Compact.validateEquation "{x}$y").
Proof. apply validators_no_backslash. vm_compute. reflexivity. Defined.

(** ** The lazy capture and "with respect to" *)

Lemma fx_exec_unfold (alts : list string) (s : string) :
  Advanced.fx_exec alts s =
  match Advanced.fx_at alts s with
  | Some g => Some g
  | None => match s with EmptyString => None | String _ s' => Advanced.fx_exec alts s' end
  end.
Proof. destruct s; reflexivity. Qed.

Lemma string_length_app (x y : string) :
  String.length (x ++ y) = String.length x + String.length y.
Proof. induction x as [|c x IH]; simpl; [reflexivity|]. rewrite IH. reflexivity. Qed.

Lemma startsWith_app_long (x y p : string) :
  String.length p <= String.length x -> JS.startsWith (x ++ y) p = JS.startsWith x p.
Proof.
  revert x; induction p as [|c p IH]; intros x Hl; [reflexivity|].
  destruct x as [|d x]; [simpl in Hl; lia|].
  unfold JS.startsWith in *. cbn [String.append JS.strip_prefix].
  destruct (Ascii.eqb c d); [|reflexivity]. apply IH. simpl in Hl. lia.
Qed.

Lemma lazy_tail_cons (c : ascii) (t : string) :
  Advanced.lazy_tail (String c t) =
  if JS.is_line_terminator c then None
  else if JS.startsWith t "with respect to" || String.eqb t EmptyString
  then Some (String c EmptyString)
  else option_map (String c) (Advanced.lazy_tail t).
Proof. reflexivity. Qed.

Lemma lazy_tail_with_respect_to (e r : string) :
  e <> EmptyString ->
  forallb (fun c => negb (JS.is_line_terminator c)) (list_ascii_of_string e) = true ->
  JS.includes (e ++ "with respect t") "with respect to" = false ->
  Advanced.lazy_tail (e ++ "with respect to" ++ r) = Some e.
Proof.
  induction e as [|c e IH]; intros Hne Hlt Hinc; [congruence|].
  cbn [list_ascii_of_string forallb] in Hlt. apply andb_prop in Hlt as [Hc Hlt].
  change (String c e ++ "with respect to" ++ r)
    with (String c (e ++ "with respect to" ++ r)).
  rewrite lazy_tail_cons. destruct (JS.is_line_terminator c); [discriminate|].
  destruct e as [|d e'].
  - change (EmptyString ++ "with respect to" ++ r) with ("with respect to" ++ r).
    rewrite startsWith_app. reflexivity.
  - assert (Hinc' : JS.includes (String d e' ++ "with respect t") "with respect to" = false).
    { apply Bool.orb_false_iff in Hinc. exact (proj2 Hinc). }
    assert (Hs : JS.startsWith (String d e' ++ "with respect to" ++ r) "with respect to"
                 = false).
    { replace (String d e' ++ "with respect to" ++ r)
        with ((String d e' ++ "with respect t") ++ ("o" ++ r))
        by (rewrite string_app_assoc; reflexivity).
      rewrite startsWith_app_long.
      - destruct (JS.startsWith _ _) eqn:E; [|reflexivity].
        rewrite (includes_of_startsWith _ _ E) in Hinc'. discriminate.
      - rewrite string_length_app. simpl. lia. }
    rewrite Hs, (IH ltac:(discriminate) Hlt Hinc'). reflexivity.
Qed.

(** The derivative special case captures the expression up to the first
    "with respect to": on a lowercased description
    "derivative of f(x) = " + e + "with respect to" + r, where the
    one-line non-empty e has no "with respect to" starting inside it, the
    function text handed to [handleDerivative] is "f(x) = " + e, whatever
    r is. *)
Theorem derivative_capture_stops_at_with_respect_to (e r : string) :
  e <> EmptyString ->
  forallb (fun c => negb (JS.is_line_terminator c)) (list_ascii_of_string e) = true ->
  JS.includes (e ++ "with respect t") "with respect to" = false ->
  Advanced.special_cases ("derivative of f(x) = " ++ e ++ "with respect to" ++ r) =
  Some (Advanced.handleDerivative ("f(x) = " ++ e)).
Proof.
  intros Hne Hlt Hinc. rewrite special_cases_eq.
  replace (Advanced.fx_exec Advanced.derivative_alts
             ("derivative of f(x) = " ++ e ++ "with respect to" ++ r))
    with (Some ("f(x) = " ++ e)); [reflexivity|].
  symmetry.
  change ("derivative of f(x) = " ++ e ++ "with respect to" ++ r)
    with (("derivative of" ++ " f(x) = ") ++ (e ++ "with respect to" ++ r)).
  rewrite fx_exec_unfold. unfold Advanced.derivative_alts. cbn [Advanced.fx_at].
  unfold Advanced.fx_after.
  rewrite strip_prefix_app, (lazy_tail_with_respect_to e r Hne Hlt Hinc). reflexivity.
Qed.

Lemma derivative_capture_stops_at_with_respect_to_witness :
  Advanced.special_cases ("derivative of f(x) = " ++ "x^3 " ++ "with respect to" ++ " x") =
  Some (Advanced.handleDerivative ("f(x) = " ++ "x^3 ")) /\
  option_map latex (Some (Advanced.handleDerivative ("f(x) = " ++ "x^3 "))) = Some "3x^{2}".
Proof.
  split; [apply derivative_capture_stops_at_with_respect_to; vm_compute; [discriminate|..];
          reflexivity | vm_compute; reflexivity].
Defined.
